(** * A shallow embedding of the fetch load balancer ([src/balancer.ts])

    The balancer keeps one mutable [Backend] record per transport, scores
    the records from their recent statuses and latencies ([score]), picks
    the two best untried records ([chooseBackends], [bestBackend]) and
    runs a per-call retry loop over them ([fetchBalancer], [canRetry]).

    Modelling conventions.
    - JavaScript numbers that hold counts, status codes and millisecond
      time stamps are integers ([nat] or [Z]); the derived scores are exact
      rationals ([Q]).  [toFixed2] is decimal rounding to two places on
      exact rationals; IEEE-754 rounding error is not modelled.
    - A JavaScript array is a [list (option Z)]: [None] is a hole of a
      sparse array such as [Array<number>(10)].
    - The pool is a store [list Backend.t]; a reference to a record is
      its index in the store, so object identity is index equality.
    - Clock readings, the coin of [Math.random] and what the transport
      does are supplied by an observation record, one per loop iteration. *)

From Stdlib Require Import ZArith QArith Qround Lqa Lia String.
From stdpp Require Import base list sorting gmap.

Local Open Scope nat_scope.

(** ** JavaScript values of the [&&]/[||] chain *)

Inductive JsVal : Type :=
  | JsBool (b : bool)
  | JsNum (x : Q).

Definition Qlt_bool (x y : Q) : bool := negb (Qle_bool y x).

Definition truthy (v : JsVal) : bool :=
  match v with
  | JsBool b => b
  | JsNum x => negb (Qeq_bool x 0)
  end.

(** [a && b] and [a || b] return one of their operands. *)
Definition js_and (a b : JsVal) : JsVal := if truthy a then b else a.
Definition js_or (a b : JsVal) : JsVal := if truthy a then a else b.

Definition to_number (v : JsVal) : Q :=
  match v with
  | JsBool true => 1%Q
  | JsBool false => 0%Q
  | JsNum x => x
  end.

(** ** Numbers *)

Definition Math_abs (x : Q) : Q := if Qle_bool 0 x then x else (- x)%Q.

(** [parseFloat(x.toFixed(2))]: the nearest multiple of 1/100, a tie going
    away from zero. *)
Definition toFixed2 (x : Q) : Q :=
  if Qle_bool 0 x
  then Qred (Qfloor (x * 100 + (1 # 2)) # 100)
  else Qred (- (Qfloor (- x * 100 + (1 # 2)) # 100)).

(** ** Arrays with holes *)

Abbreviation JsArray := (list (option Z)).

(** The elements [filter] and [reduce] visit: holes are skipped. *)
Definition present (a : JsArray) : list Z := omap id a.

(** [a.sort(cmp)] with the ascending numeric comparator of [score]: the
    present elements in ascending order, then the holes.  The array is
    sorted in place, so the result replaces the array. *)
Definition js_sort (a : JsArray) : JsArray :=
  (Some <$> merge_sort Z.le (present a)) ++
  replicate (length a - length (present a)) None.

(** [a[i] = v] for a natural index: inside the array the slot is
    overwritten, past its end the array grows and the gap is holes. *)
Definition js_store (a : JsArray) (i : nat) (v : Z) : JsArray :=
  if decide (i < length a) then <[i := Some v]> a
  else a ++ replicate (i - length a) None ++ [Some v].

(** [a[(n - 1) % a.length] = v]: with an empty array the index is [NaN],
    the assignment sets a property named "NaN" and no element changes. *)
Definition js_store_mod (a : JsArray) (n : nat) (v : Z) : JsArray :=
  match length a with
  | 0 => a
  | S _ => js_store a ((n - 1) mod length a) v
  end.

(** ** Responses and backend records *)

Module Response.
Record t : Type := mk { status : Z; body : string }.
End Response.

Definition proxyError : Response.t :=
  Response.mk 502 "couldn't connect to origin".

Definition noBackend : Response.t :=
  Response.mk 502 "No backend available".

Module Backend.
Record t : Type := mk {
  proxy : nat;
  requestCount : nat;
  scoredRequestCount : nat;
  statuses : JsArray;
  latencies : JsArray;
  healthScore : Q;
  latencyScore : Q;
  score : Q;
  lastError : Z;
  errorCount : nat
}.

Definition with_requestCount (n : nat) (b : t) : t :=
  mk (proxy b) n (scoredRequestCount b) (statuses b) (latencies b)
     (healthScore b) (latencyScore b) (score b) (lastError b) (errorCount b).

Definition with_buffers (s l : JsArray) (b : t) : t :=
  mk (proxy b) (requestCount b) (scoredRequestCount b) s l
     (healthScore b) (latencyScore b) (score b) (lastError b) (errorCount b).

Definition with_latencies (l : JsArray) (b : t) : t :=
  with_buffers (statuses b) l b.

Definition with_lastError (e : Z) (b : t) : t :=
  mk (proxy b) (requestCount b) (scoredRequestCount b) (statuses b)
     (latencies b) (healthScore b) (latencyScore b) (score b) e
     (errorCount b).

Definition with_scores (n : nat) (h l s : Q) (b : t) : t :=
  mk (proxy b) (requestCount b) n (statuses b) (latencies b)
     h l s (lastError b) (errorCount b).
End Backend.

(** The record [balancer] builds for the transport [h]. *)
Definition newBackend (h : nat) : Backend.t :=
  Backend.mk h 0 0 (replicate 10 None) (replicate 10 None) 1 1 1 0 0.

(** ** The scorer *)

(** The [&&]/[||] chain that computes [timeWeight]. *)
Definition timeWeightExpr (lastError timeSinceError : Z) : JsVal :=
  js_or (js_and (JsBool (lastError =? 0)%Z) (JsNum 0))
 (js_or (js_and (JsBool (timeSinceError <? 1000)%Z) (JsNum 1))
 (js_or (js_and (JsBool (timeSinceError <? 3000)%Z) (JsNum (8 # 10)))
 (js_or (js_and (JsBool (timeSinceError <? 5000)%Z) (JsNum (3 # 10)))
 (js_or (js_and (JsBool (timeSinceError <? 10000)%Z) (JsNum (1 # 10)))
        (JsNum 0))))).

Definition timeWeight (lastError timeSinceError : Z) : Q :=
  to_number (timeWeightExpr lastError timeSinceError).

(** [latencies.filter(l => !!l).length] *)
Definition measuresTaken (latencies : JsArray) : nat :=
  length (filter (λ l : Z, l ≠ 0%Z) (present latencies)).

(** [statuses.reduce((acc, s) => (s && !isNaN(s) && s >= 500 && s < 600) ? ++acc : acc, 0)] *)
Definition is5xx (s : Z) : bool := (500 <=? s)%Z && (s <? 600)%Z.

Definition errors (statuses : JsArray) : nat :=
  foldl (λ acc s, if is5xx s then S acc else acc) 0 (present statuses).

Definition Qnat (n : nat) : Q := inject_Z (Z.of_nat n).

Definition healthScoreOf (w : Q) (statuses latencies : JsArray) : Q :=
  toFixed2 (1 - w * (Qnat (errors statuses) / Qnat (measuresTaken latencies))).

(** [sortedLatencies[Math.floor(measuresTaken / 2)]]; the slot is always a
    present element (see [middleLatency_present]). *)
Definition middleLatency (sorted : JsArray) (m : nat) : Q :=
  match sorted !! (m / 2) with
  | Some (Some l) => inject_Z l
  | _ => 0%Q
  end.

Section Scorer.
(** The tunables of [balancer-config]. *)
Variables LATENCY_DEVIATION_ALLOWED AVERAGE_LATENCY_EXPECTED : Q.
Variables HEALTH_SCORE_WEIGHT LATENCY_SCORE_WEIGHT : Q.
Variable LATENCY_SCORE_INSTABILITY_WEIGHT : Q.

(** One step of the [reduce] that smooths the latencies; the second
    component is the counter [beyondAllowedLatencyDeviation]. *)
Definition smooth (st : Q * nat) (l : Z) : Q * nat :=
  let '(acc, beyond) := st in
  if Qlt_bool (Math_abs (acc - inject_Z l)) LATENCY_DEVIATION_ALLOWED
  then ((acc + inject_Z l) / 2, beyond)%Q
  else (acc, S beyond).

Definition smoothed (sorted : JsArray) (m : nat) : Q * nat :=
  foldl smooth (middleLatency sorted m, 0) (present sorted).

Definition averageLatency (sorted : JsArray) (m : nat) : Q :=
  fst (smoothed sorted m).

Definition beyondAllowedLatencyDeviation (sorted : JsArray) (m : nat) : nat :=
  snd (smoothed sorted m).

Definition correctedLatencyDeviationCount (sorted : JsArray) (m : nat) : nat :=
  if decide (3 < m) then beyondAllowedLatencyDeviation sorted m else 0.

Definition instabilityScore (sorted : JsArray) (m : nat) : Q :=
  (1 - Qnat (correctedLatencyDeviationCount sorted m) / Qnat m)%Q.

Definition pingScore (sorted : JsArray) (m : nat) : Q :=
  if Qle_bool (averageLatency sorted m / AVERAGE_LATENCY_EXPECTED) 1
  then 1%Q
  else (AVERAGE_LATENCY_EXPECTED / averageLatency sorted m)%Q.

Definition rawLatencyScore (sorted : JsArray) (m : nat) : Q :=
  toFixed2 (pingScore sorted m * (1 - LATENCY_SCORE_INSTABILITY_WEIGHT)
            + instabilityScore sorted m * LATENCY_SCORE_INSTABILITY_WEIGHT).

Definition latencyScoreOf (w : Q) (sorted : JsArray) (m : nat) : Q :=
  toFixed2 (1 - w * rawLatencyScore sorted m).

(** [score(backend, errorBasis)]: the returned triple and the record as
    the call leaves it.  [dateNow] is what [Date.now()] reads when no
    [errorBasis] is passed. *)
Definition score (dateNow : Z) (backend : Backend.t) (errorBasis : option Z)
  : (Q * Q * Q) * Backend.t :=
  let errorBasis := default dateNow errorBasis in
  let timeSinceError := (errorBasis - Backend.lastError backend)%Z in
  let w := timeWeight (Backend.lastError backend) timeSinceError in
  let m := measuresTaken (Backend.latencies backend) in
  if decide (m < 2) then ((0, 0, 0)%Q, backend)
  else
    let healthScore :=
      healthScoreOf w (Backend.statuses backend) (Backend.latencies backend) in
    let sortedLatencies := js_sort (Backend.latencies backend) in
    let backend := Backend.with_latencies sortedLatencies backend in
    let latencyScore := latencyScoreOf w sortedLatencies m in
    let s := (healthScore * HEALTH_SCORE_WEIGHT
              + latencyScore * LATENCY_SCORE_WEIGHT)%Q in
    ((healthScore, latencyScore, s),
     Backend.with_scores (Backend.requestCount backend)
       healthScore latencyScore s backend).
End Scorer.

(** ** The selector *)

Section Selector.
(** The store the references point into.  A dangling reference does not
    occur in the program; [deref] gives it a fresh record. *)
Variable store : list Backend.t.

Definition deref (r : nat) : Backend.t := default (newBackend 0) (store !! r).

(** The test of [bestBackend] on the two records. *)
Definition beats (x y : Backend.t) : bool :=
  Qlt_bool (Backend.score y) (Backend.score x)
  || (Qeq_bool (Backend.score x) (Backend.score y)
      && (Backend.requestCount x <? Backend.requestCount y)).

Definition bestBackend (b1 b2 : nat) : nat :=
  if beats (deref b1) (deref b2) then b1 else b2.

(** [attempted && attempted.has(b)] *)
Definition was_attempted (attempted : option (gset nat)) (b : nat) : bool :=
  match attempted with
  | Some s => bool_decide (b ∈ s)
  | None => false
  end.

(** The body of the [for] loop on the pair [(b1, b2)]. *)
Definition chooseStep (attempted : option (gset nat))
    (st : option nat * option nat) (b : nat) : option nat * option nat :=
  if was_attempted attempted b then st
  else
    match st with
    | (None, b2) => (Some b, b2)
    | (Some b1, None) => (Some b1, Some b)
    | (Some old1, Some b2) =>
        let b1 := bestBackend b old1 in
        if decide (old1 ≠ b1)
        then (Some b1, Some (bestBackend old1 b2))
        else (Some b1, Some (bestBackend b b2))
    end.

Definition chooseBackends (backends : list nat)
    (attempted : option (gset nat)) : option nat * option nat :=
  foldl (chooseStep attempted) (None, None) backends.
End Selector.

(** ** The dispatcher *)

Module Request.
Record t : Type := mk { method : string }.
End Request.

Inductive RequestInfo : Type :=
  | Url (u : string)
  | Req (r : Request.t).

(** [new Request(url)] has the default method. *)
Definition toRequest (req : RequestInfo) : Request.t :=
  match req with
  | Url _ => Request.mk "GET"
  | Req r => r
  end.

Definition canRetry (req : Request.t) (resp : Response.t) : bool :=
  if (Response.status resp <? 500)%Z then false
  else if (Request.method req =? "GET")%string
          || (Request.method req =? "HEAD")%string then true
  else false.

(** What the call [backend.proxy(req, init)] does: it returns a promise
    that resolves to a response or rejects, or the call itself throws
    before any promise exists. *)
Inductive Outcome : Type :=
  | Resolves (resp : Response.t)
  | Rejects
  | Throws.

(** What one loop iteration observes of its environment, in program order:
    the coin, the transport, and the clock at each reading. *)
Record Obs : Type := mkObs {
  coin : bool;         (* Math.floor(Math.random() * 2) == 0 *)
  reply : Outcome;
  t_rescore : Z;       (* Date.now() in the score before dispatch *)
  t_start : Z;         (* requestStart *)
  t_end : Z;           (* the clock after the await *)
  t_error : Z;         (* Date.now() stored in lastError *)
  t_score : Z          (* Date.now() in the score after a 5xx *)
}.

Inductive Result : Type :=
  | Returned (resp : Response.t)
  | Raised.

Section Dispatcher.
Variables LATENCY_DEVIATION_ALLOWED AVERAGE_LATENCY_EXPECTED : Q.
Variables HEALTH_SCORE_WEIGHT LATENCY_SCORE_WEIGHT : Q.
Variable LATENCY_SCORE_INSTABILITY_WEIGHT : Q.

(** [score(backend)] called for its effect. *)
Definition rescore (now : Z) (b : Backend.t) : Backend.t :=
  snd (score LATENCY_DEVIATION_ALLOWED AVERAGE_LATENCY_EXPECTED
         HEALTH_SCORE_WEIGHT LATENCY_SCORE_WEIGHT
         LATENCY_SCORE_INSTABILITY_WEIGHT now b None).

(** Lines 79-80: rescore if stale, then count the request. *)
Definition prepare (o : Obs) (b : Backend.t) : Backend.t :=
  let b := if decide (Backend.scoredRequestCount b ≠ Backend.requestCount b)
           then rescore (t_rescore o) b else b in
  Backend.with_requestCount (Backend.requestCount b + 1) b.

(** Lines 83-91: the response and latency the [try] block leaves; no
    value when the transport call threw. *)
Definition settle (o : Obs) : option (Response.t * Z) :=
  match reply o with
  | Resolves resp => Some (resp, (t_end o - t_start o)%Z)
  | Rejects => Some (proxyError, 0%Z)
  | Throws => None
  end.

(** Lines 93-99: the two buffers take the new observation. *)
Definition record_observation (status latency : Z) (b : Backend.t) : Backend.t :=
  if decide (length (Backend.statuses b) < 10)
  then Backend.with_buffers (Backend.statuses b ++ [Some status])
         (Backend.latencies b ++ [Some latency]) b
  else Backend.with_buffers
         (js_store_mod (Backend.statuses b) (Backend.requestCount b) status)
         (js_store_mod (Backend.latencies b) (Backend.requestCount b) latency) b.

(** Lines 102-103. *)
Definition after_error (o : Obs) (b : Backend.t) : Backend.t :=
  rescore (t_score o) (Backend.with_lastError (t_error o) b).

(** Everything one iteration does to the chosen record once the transport
    call has returned its promise. *)
Definition attempt (o : Obs) (resp : Response.t) (latency : Z)
    (b : Backend.t) : Backend.t :=
  let b := record_observation (Response.status resp) latency (prepare o b) in
  if is5xx (Response.status resp) then after_error o b else b.

(** The [while] loop.  Each iteration consumes one observation; [None]
    means the observations ran out before the loop ended. *)
Fixpoint dispatch (env : list Obs) (req : Request.t)
    (tracked : list Backend.t) (attempted : gset nat)
  : option (Result * list Backend.t) :=
  if decide (size attempted < length tracked) then
    match env with
    | [] => None
    | o :: env =>
        match chooseBackends tracked (seq 0 (length tracked)) (Some attempted) with
        | (None, _) => Some (Returned noBackend, tracked)
        | (Some backendA, backendB) =>
            let backend :=
              match backendB with
              | None => backendA
              | Some backendB => if coin o then backendA else backendB
              end in
            match settle o with
            | None => Some (Raised, tracked)
            | Some (resp, latency) =>
                let tracked :=
                  <[backend := attempt o resp latency (deref tracked backend)]>
                    tracked in
                let attempted := {[backend]} ∪ attempted in
                if is5xx (Response.status resp) && canRetry req resp
                then dispatch env req tracked attempted
                else Some (Returned resp, tracked)
            end
        end
    end
  else Some (Returned proxyError, tracked).

Definition fetchBalancer (env : list Obs) (tracked : list Backend.t)
    (req : RequestInfo) : option (Result * list Backend.t) :=
  dispatch env (toRequest req) tracked ∅.
End Dispatcher.

(** [balancer(backends)]: one fresh record per transport. *)
Definition balancer (backends : list nat) : list Backend.t :=
  newBackend <$> backends.

(** ** Notions the properties are stated with *)

(** The components of the triple [score] returns. *)
Definition returnedHealth (r : (Q * Q * Q) * Backend.t) : Q := fst (fst (fst r)).
Definition returnedLatency (r : (Q * Q * Q) * Backend.t) : Q := snd (fst (fst r)).
Definition returnedScore (r : (Q * Q * Q) * Backend.t) : Q := snd (fst r).

(** The health score [score] returns when called [elapsed] milliseconds
    after the record's last error. *)
Definition healthAfter (D A H L I : Q) (b : Backend.t) (elapsed : Z) : Q :=
  returnedHealth (score D A H L I 0 b (Some (Backend.lastError b + elapsed)%Z)).

(** The share of error-free samples with no time decay applied. *)
Definition undecayedHealthRatio (b : Backend.t) : Q :=
  (1 - Qnat (errors (Backend.statuses b))
       / Qnat (measuresTaken (Backend.latencies b)))%Q.

(** The four fields [balancer] initialises to their defaults. *)
Definition scoreFields (b : Backend.t) : Q * Q * Q * nat :=
  (Backend.healthScore b, Backend.latencyScore b, Backend.score b,
   Backend.scoredRequestCount b).

(** The records the selector may return. *)
Definition untried (attempted : option (gset nat)) (backends : list nat) : list nat :=
  filter (λ b, was_attempted attempted b = false) backends.

(** [TwoBest store l res]: [res] holds the records at two different
    positions of [l], or as many as [l] has, and no record at another
    position beats either of them. *)
Inductive TwoBest (store : list Backend.t) (l : list nat)
  : option nat * option nat → Prop :=
  | TwoBest_none : l = [] → TwoBest store l (None, None)
  | TwoBest_one r : l = [r] → TwoBest store l (Some r, None)
  | TwoBest_both i j r1 r2 :
      i ≠ j → l !! i = Some r1 → l !! j = Some r2 →
      (∀ k z, k ≠ i → k ≠ j → l !! k = Some z →
         beats (deref store z) (deref store r1) = false
         ∧ beats (deref store z) (deref store r2) = false) →
      TwoBest store l (Some r1, Some r2).

(** The requests the whole pool has served. *)
Definition totalRequests (tracked : list Backend.t) : nat :=
  sum_list (Backend.requestCount <$> tracked).

(** The statuses a series of observations delivers, oldest first. *)
Definition observedStatuses (os : list Obs) : list Z :=
  omap (λ o, (λ p, Response.status (fst p)) <$> settle o) os.

(** An observation answered with a 5xx status. *)
Definition fails (o : Obs) : Prop :=
  ∃ resp latency, settle o = Some (resp, latency)
    ∧ is5xx (Response.status resp) = true.

(** The ring discipline of the status buffer: both buffers have ten
    slots, [seen] lists the statuses delivered so far, and each of the
    last ten of them sits at its arrival index modulo 10. *)
Definition ring_inv (seen : list Z) (b : Backend.t) : Prop :=
  length (Backend.statuses b) = 10
  ∧ length (Backend.latencies b) = 10
  ∧ Backend.requestCount b = length seen
  ∧ ∀ i s, seen !! i = Some s → length seen ≤ i + 10 →
      Backend.statuses b !! (i mod 10) = Some (Some s).

(** What a run of the loop from [tracked] and [attempted] over [env]
    guarantees of its outcome: it ends; it keeps the size of the pool and
    every record already attempted; it adds at most one request to any
    record; it raises only if a transport call throws; and when every
    observation is a 5xx answer to a GET or HEAD request it attempts every
    untried record once and returns [proxyError]. *)
Definition LoopSpec (env : list Obs) (req : Request.t)
    (tracked : list Backend.t) (attempted : gset nat)
    (out : option (Result * list Backend.t)) : Prop :=
  ∃ res tracked',
    out = Some (res, tracked')
    ∧ length tracked' = length tracked
    ∧ (∀ i, i ∈ attempted → tracked' !! i = tracked !! i)
    ∧ (∀ i b b', tracked !! i = Some b → tracked' !! i = Some b' →
         Backend.requestCount b' = Backend.requestCount b
         ∨ Backend.requestCount b' = S (Backend.requestCount b))
    ∧ (Forall (λ o, reply o ≠ Throws) env → ∃ resp, res = Returned resp)
    ∧ (Forall fails env →
       Request.method req = "GET"%string ∨ Request.method req = "HEAD"%string →
       res = Returned proxyError
       ∧ ∀ i b b', i ∉ attempted → tracked !! i = Some b →
           tracked' !! i = Some b' →
           Backend.requestCount b' = S (Backend.requestCount b)).

Section Histories.
Variables LATENCY_DEVIATION_ALLOWED AVERAGE_LATENCY_EXPECTED : Q.
Variables HEALTH_SCORE_WEIGHT LATENCY_SCORE_WEIGHT : Q.
Variable LATENCY_SCORE_INSTABILITY_WEIGHT : Q.

(** One dispatch attempt on a record, as the loop performs it; a
    transport call that throws leaves the record alone. *)
Definition attemptObs (b : Backend.t) (o : Obs) : Backend.t :=
  match settle o with
  | Some (resp, latency) =>
      attempt LATENCY_DEVIATION_ALLOWED AVERAGE_LATENCY_EXPECTED
        HEALTH_SCORE_WEIGHT LATENCY_SCORE_WEIGHT
        LATENCY_SCORE_INSTABILITY_WEIGHT o resp latency b
  | None => b
  end.

(** The record after each of a series of attempts, oldest first. *)
Fixpoint history (b : Backend.t) (os : list Obs) : list Backend.t :=
  match os with
  | [] => []
  | o :: os => attemptObs b o :: history (attemptObs b o) os
  end.

Definition attempts (b : Backend.t) (os : list Obs) : Backend.t :=
  foldl attemptObs b os.

(** A series of calls on one pool, each with its own observations. *)
Fixpoint calls (cs : list (list Obs * RequestInfo)) (tracked : list Backend.t)
  : option (list Result * list Backend.t) :=
  match cs with
  | [] => Some ([], tracked)
  | (env, req) :: cs =>
      match fetchBalancer LATENCY_DEVIATION_ALLOWED AVERAGE_LATENCY_EXPECTED
              HEALTH_SCORE_WEIGHT LATENCY_SCORE_WEIGHT
              LATENCY_SCORE_INSTABILITY_WEIGHT env tracked req with
      | Some (res, tracked) =>
          match calls cs tracked with
          | Some (rs, tracked) => Some (res :: rs, tracked)
          | None => None
          end
      | None => None
      end
  end.
End Histories.

(** ** Concrete runs

    The tunables are those of [balancer-config].  The scorer tests of
    the repository pass with any tunables whose two weights sum to one
    and whose allowed deviation is at most the expected latency; the
    concrete runs below use one such choice.  None of the facts read off
    them depends on it: they concern the buffers, the request counts, the
    responses and the health score. *)

Definition sampleScore : Z → Backend.t → option Z → (Q * Q * Q) * Backend.t :=
  score 50 100 (1 # 2) (1 # 2) (1 # 5).

Definition sampleHealthAfter : Backend.t → Z → Q :=
  healthAfter 50 100 (1 # 2) (1 # 2) (1 # 5).

Definition sampleFetch
  : list Obs → list Backend.t → RequestInfo → option (Result * list Backend.t) :=
  fetchBalancer 50 100 (1 # 2) (1 # 2) (1 # 5).

Definition sampleCalls
  : list (list Obs * RequestInfo) → list Backend.t
    → option (list Result * list Backend.t) :=
  calls 50 100 (1 # 2) (1 # 2) (1 # 5).

(** [healthy()] and [unhealthy()] of the scorer tests. *)
Definition healthy : Backend.t :=
  Backend.mk 0 0 0 (replicate 3 (Some 200%Z)) (replicate 3 (Some 100%Z))
    1 1 1 0 0.

Definition unhealthy : Backend.t :=
  Backend.mk 0 0 0
    (replicate 3 (Some 200%Z) ++ replicate 3 (Some 500%Z))
    (replicate 3 (Some 100%Z) ++ replicate 3 (Some 200%Z))
    (1 # 2) (1 # 2) (1 # 2) 0 0.

(** The pool of the selection tests: three unhealthy records, then two
    healthy ones. *)
Definition testPool : list Backend.t :=
  [unhealthy; unhealthy; unhealthy; healthy; healthy].

Definition GET (u : string) : RequestInfo := Url u.
Definition POST : RequestInfo := Req (Request.mk "POST").

(** A clock reading of the order [Date.now()] returns. *)
Definition clock0 : Z := 1700000000000.

(** An observation of a transport that answers [status] after [latency]
    milliseconds, every other clock reading being [now]. *)
Definition answer (status : Z) (text : string) (latency now : Z) : Obs :=
  mkObs true (Resolves (Response.mk status text)) now now (now + latency) now now.

(** An observation of a transport whose promise rejects. *)
Definition rejecting : Obs :=
  mkObs true Rejects clock0 clock0 clock0 clock0 clock0.

(** An observation of a transport whose call throws before it returns a
    promise, as a plain function of type [FetchFn] may. *)
Definition throwing : Obs :=
  mkObs true Throws clock0 clock0 clock0 clock0 clock0.

(** Twenty calls answered 200 after 1 ms, as in the test of the last ten
    statuses. *)
Definition twentyCalls : list (list Obs * RequestInfo) :=
  (λ k, ([answer 200 "hi" 1 (clock0 + Z.of_nat k)], GET "http://localhost/hello/"))
    <$> seq 0 20.

(** Three calls on a pool of one transport that answers 500 each time,
    the third answer arriving within the same millisecond. *)
Definition threeErrors : list (list Obs * RequestInfo) :=
  [([answer 500 "down" 5 clock0], GET "/");
   ([answer 500 "down" 5 (clock0 + 1000)], GET "/");
   ([answer 500 "down" 0 (clock0 + 2000)], GET "/")].

(** Three calls on a pool of one transport: 200 after 5 ms, 404 after
    3 ms, 200 after 7 ms. *)
Definition threeAnswers : list (list Obs * RequestInfo) :=
  [([answer 200 "a" 5 clock0], GET "/");
   ([answer 404 "b" 3 (clock0 + 1000)], GET "/");
   ([answer 200 "c" 7 (clock0 + 2000)], GET "/")].

(** A record that has seen the first two of those answers. *)
Definition twoSamples : Backend.t :=
  Backend.mk 0 2 0
    ([Some 200%Z; Some 404%Z] ++ replicate 8 None)
    ([Some 5%Z; Some 3%Z] ++ replicate 8 None) 1 1 1 0 0.

(** Eleven attempts answered 201, ..., 211. *)
Definition elevenAnswers : list Obs :=
  (λ k, answer (200 + Z.of_nat k) "ok" 0 (clock0 + Z.of_nat k)) <$> seq 1 11.

(** Two attempts that leave no usable sample: an answer within the
    millisecond and a rejected promise. *)
Definition noSamples : list Obs := [answer 200 "ok" 0 clock0; rejecting].

(** ** Construction from arbitrary values

    [balancer] receives JavaScript values and keeps those whose [typeof] is
    "function"; the example wiring passes objects with a [fn] and a [url]
    field instead. *)

Inductive Candidate : Type :=
  | Callable (h : nat)
  | Wiring (fn : nat) (url : string).

(** [balancer(backends)] up to the records: [backends.map] stops at the
    first value that is not a function with the error of line 44. *)
Fixpoint balancerOf (backends : list Candidate) : string + list Backend.t :=
  match backends with
  | [] => inr []
  | Callable h :: backends =>
      match balancerOf backends with
      | inr tracked => inr (newBackend h :: tracked)
      | inl e => inl e
      end
  | Wiring _ _ :: _ => inl "Backend must be a fetch like function"%string
  end.

(** [examples/load-balancer/index.ts]: the two values handed to
    [balancer]; the number stands for the imported [proxy] function. *)
Definition exampleBackends : list Candidate :=
  [Wiring 0 "https://example.com"; Wiring 0 "https://example.org"].

(** ** Further notions *)

(** What a record can turn into while the pool serves calls: the
    transport and the reserved counter stay, the request count does not
    drop, and the shape a record is built with (ten slots in each buffer,
    no more requests scored than made) is kept. *)
Definition evolves (b b' : Backend.t) : Prop :=
  Backend.proxy b' = Backend.proxy b
  ∧ Backend.errorCount b' = Backend.errorCount b
  ∧ Backend.requestCount b ≤ Backend.requestCount b'
  ∧ (length (Backend.statuses b) = length (Backend.latencies b) →
     length (Backend.statuses b') = length (Backend.latencies b'))
  ∧ (length (Backend.statuses b) = 10 ∧ length (Backend.latencies b) = 10 →
     length (Backend.statuses b') = 10 ∧ length (Backend.latencies b') = 10)
  ∧ (Backend.scoredRequestCount b ≤ Backend.requestCount b →
     Backend.scoredRequestCount b' ≤ Backend.requestCount b').

(** The ranking key of a record. *)
Definition rankKey (b : Backend.t) : Q * nat :=
  (Backend.score b, Backend.requestCount b).

(** An observation whose latency is recorded as 0: a rejected promise, or
    an answer within the millisecond. *)
Definition unmeasurable (o : Obs) : Prop :=
  ∃ resp, settle o = Some (resp, 0%Z).

(** Two answers 500 after 5 ms, then seventeen rejected promises: the
    record is scored on its two samples and later loses one of them to
    the zeros the rejections record. *)
Definition measuredThenRejected : list Obs :=
  [answer 500 "down" 5 clock0; answer 500 "down" 5 (clock0 + 1000)]
  ++ replicate 17 rejecting.

(** * Properties *)

(** ** Rounding and the decay weight *)

Lemma timeWeight_step (lastError t : Z) :
  timeWeight lastError t =
    if (t <? 1000)%Z then 1%Q
    else if (t <? 3000)%Z then (8 # 10)%Q
    else if (t <? 5000)%Z then (3 # 10)%Q
    else if (t <? 10000)%Z then (1 # 10)%Q
    else 0%Q.
Proof.
  unfold timeWeight, timeWeightExpr.
  destruct (lastError =? 0)%Z, (t <? 1000)%Z, (t <? 3000)%Z,
    (t <? 5000)%Z, (t <? 10000)%Z; reflexivity.
Qed.

Lemma Qle_bool_false (x y : Q) : Qle_bool x y = false -> (y < x)%Q.
Proof.
  intros H. apply Qnot_le_lt. intros Hle. apply Qle_bool_iff in Hle. congruence.
Qed.

Lemma Qfloor_half_mono (x y : Q) :
  (x <= y)%Q -> (Qfloor (x * 100 + (1 # 2)) # 100 <= Qfloor (y * 100 + (1 # 2)) # 100)%Q.
Proof.
  intros H. unfold Qle; cbn [Qnum Qden].
  apply Z.mul_le_mono_nonneg_r; [lia|].
  apply Qfloor_resp_le. lra.
Qed.

Lemma Qfloor_half_nonneg (x : Q) : (0 <= x)%Q -> (0 <= Qfloor (x * 100 + (1 # 2)) # 100)%Q.
Proof.
  intros H. unfold Qle; cbn [Qnum Qden]. rewrite Z.mul_1_r.
  change (0 * Z.pos 100)%Z with (Qfloor 0). apply Qfloor_resp_le. lra.
Qed.

Lemma toFixed2_mono (x y : Q) : (x <= y)%Q -> (toFixed2 x <= toFixed2 y)%Q.
Proof.
  intros H. unfold toFixed2.
  destruct (Qle_bool 0 x) eqn:Hx, (Qle_bool 0 y) eqn:Hy; rewrite !Qred_correct.
  - by apply Qfloor_half_mono.
  - apply Qle_bool_iff in Hx. apply Qle_bool_false in Hy. lra.
  - apply Qle_bool_false in Hx. apply Qle_bool_iff in Hy.
    pose proof (Qfloor_half_nonneg (- x)) as H1.
    pose proof (Qfloor_half_nonneg y Hy) as H2.
    assert (0 <= - x)%Q as H3 by lra. specialize (H1 H3). lra.
  - pose proof (Qfloor_half_mono (- y) (- x)) as H1.
    assert (- y <= - x)%Q as H2 by lra. specialize (H1 H2). lra.
Qed.

Lemma toFixed2_0 : toFixed2 0 = 0%Q.
Proof. reflexivity. Qed.
Lemma toFixed2_1 : toFixed2 1 = 1%Q.
Proof. reflexivity. Qed.
Lemma toFixed2_Qeq x y : (x == y)%Q -> toFixed2 x = toFixed2 y.
Proof.
  intros H. unfold toFixed2.
  assert (Qle_bool 0 x = Qle_bool 0 y) as ->.
  { destruct (Qle_bool 0 x) eqn:Hx, (Qle_bool 0 y) eqn:Hy; auto.
    - apply Qle_bool_iff in Hx. apply Qle_bool_false in Hy. lra.
    - apply Qle_bool_iff in Hy. apply Qle_bool_false in Hx. lra. }
  destruct (Qle_bool 0 y); apply Qred_complete.
  - rewrite H. reflexivity.
  - rewrite H. reflexivity.
Qed.

Lemma timeWeight_range (lastError t : Z) :
  (0 <= timeWeight lastError t <= 1)%Q.
Proof.
  rewrite timeWeight_step.
  destruct (t <? 1000)%Z, (t <? 3000)%Z, (t <? 5000)%Z, (t <? 10000)%Z;
    split; by vm_compute.
Qed.

Lemma timeWeight_antitone (lastError t1 t2 : Z) :
  (t1 <= t2)%Z -> (timeWeight lastError t2 <= timeWeight lastError t1)%Q.
Proof.
  intros H. rewrite !timeWeight_step.
  repeat match goal with
         | |- context [(?a <? ?b)%Z] => destruct (Z.ltb_spec a b)
         end; try lia; by vm_compute.
Qed.

Lemma timeWeight_expired (lastError t : Z) :
  (10000 <= t)%Z -> timeWeight lastError t = 0%Q.
Proof.
  intros H. rewrite timeWeight_step.
  repeat match goal with
         | |- context [(?a <? ?b)%Z] => destruct (Z.ltb_spec a b)
         end; try lia; reflexivity.
Qed.

Lemma toFixed2_le_1 (x : Q) : (x <= 1)%Q -> (toFixed2 x <= 1)%Q.
Proof. intros H. apply (toFixed2_mono x 1 H). Qed.

Lemma toFixed2_ge_0 (x : Q) : (0 <= x)%Q -> (0 <= toFixed2 x)%Q.
Proof. intros H. apply (toFixed2_mono 0 x H). Qed.

Lemma Qnat_nonneg (n : nat) : (0 <= Qnat n)%Q.
Proof. unfold Qnat, Qle; cbn [Qnum Qden inject_Z]. lia. Qed.

Lemma Qnat_pos (n : nat) : 0 < n -> (0 < Qnat n)%Q.
Proof. intros H. unfold Qnat, Qlt; cbn [Qnum Qden inject_Z]. lia. Qed.

Lemma Qnat_le (n m : nat) : n <= m -> (Qnat n <= Qnat m)%Q.
Proof. intros H. unfold Qnat, Qle; cbn [Qnum Qden inject_Z]. lia. Qed.

Lemma Qnat_ratio_range (n m : nat) : 0 < m -> (0 <= Qnat n / Qnat m)%Q.
Proof.
  intros H. apply Qle_shift_div_l; [by apply Qnat_pos|].
  rewrite Qmult_0_l. apply Qnat_nonneg.
Qed.

Lemma Qnat_ratio_le_1 (n m : nat) : 0 < m -> n <= m -> (Qnat n / Qnat m <= 1)%Q.
Proof.
  intros H Hle. apply Qle_shift_div_r; [by apply Qnat_pos|].
  rewrite Qmult_1_l. by apply Qnat_le.
Qed.

Lemma healthScoreOf_le_1 w s l :
  (0 <= w)%Q -> 0 < measuresTaken l -> (healthScoreOf w s l <= 1)%Q.
Proof.
  intros Hw Hm. unfold healthScoreOf. apply toFixed2_le_1.
  pose proof (Qnat_ratio_range (errors s) _ Hm) as Hr.
  set (r := (Qnat (errors s) / Qnat (measuresTaken l))%Q) in *.
  assert (0 <= w * r)%Q by (by apply Qmult_le_0_compat).
  lra.
Qed.

Lemma healthScoreOf_ge_0 w s l :
  (0 <= w <= 1)%Q -> 0 < measuresTaken l -> errors s <= measuresTaken l ->
  (0 <= healthScoreOf w s l)%Q.
Proof.
  intros Hw Hm He. unfold healthScoreOf. apply toFixed2_ge_0.
  pose proof (Qnat_ratio_range (errors s) _ Hm) as Hr.
  pose proof (Qnat_ratio_le_1 (errors s) _ Hm He) as Hr1.
  set (r := (Qnat (errors s) / Qnat (measuresTaken l))%Q) in *.
  assert (w * r <= 1 * 1)%Q by (apply Qmult_le_compat_nonneg; lra).
  lra.
Qed.

Lemma healthScoreOf_antitone w1 w2 s l :
  (w1 <= w2)%Q -> 0 < measuresTaken l ->
  (healthScoreOf w2 s l <= healthScoreOf w1 s l)%Q.
Proof.
  intros Hw Hm. unfold healthScoreOf. apply toFixed2_mono.
  pose proof (Qnat_ratio_range (errors s) _ Hm) as Hr.
  set (r := (Qnat (errors s) / Qnat (measuresTaken l))%Q) in *.
  assert (w1 * r <= w2 * r)%Q by (apply Qmult_le_compat_r; lra).
  lra.
Qed.

(** ** The latency score *)

Section LatencyBounds.
Variables LATENCY_DEVIATION_ALLOWED AVERAGE_LATENCY_EXPECTED : Q.
Variable LATENCY_SCORE_INSTABILITY_WEIGHT : Q.
Hypothesis expected_pos : (0 < AVERAGE_LATENCY_EXPECTED)%Q.
Hypothesis weight_range : (0 <= LATENCY_SCORE_INSTABILITY_WEIGHT <= 1)%Q.

Local Abbreviation count' :=
  (correctedLatencyDeviationCount LATENCY_DEVIATION_ALLOWED).
Local Abbreviation raw' :=
  (rawLatencyScore LATENCY_DEVIATION_ALLOWED AVERAGE_LATENCY_EXPECTED
     LATENCY_SCORE_INSTABILITY_WEIGHT).
Local Abbreviation latencyScoreOf' :=
  (latencyScoreOf LATENCY_DEVIATION_ALLOWED AVERAGE_LATENCY_EXPECTED
     LATENCY_SCORE_INSTABILITY_WEIGHT).

(** The comment on [pingScore]: it ranges between 0 and 1. *)
Lemma pingScore_range sorted m :
  (0 <= pingScore LATENCY_DEVIATION_ALLOWED AVERAGE_LATENCY_EXPECTED sorted m <= 1)%Q.
Proof.
  unfold pingScore.
  set (avg := averageLatency LATENCY_DEVIATION_ALLOWED sorted m).
  destruct (Qle_bool (avg / AVERAGE_LATENCY_EXPECTED) 1) eqn:Hd.
  - split; by vm_compute.
  - apply Qle_bool_false in Hd.
    assert (AVERAGE_LATENCY_EXPECTED < avg)%Q as Hlt.
    { assert (avg == avg / AVERAGE_LATENCY_EXPECTED * AVERAGE_LATENCY_EXPECTED)%Q
        as -> by (field; lra).
      set (d := (avg / AVERAGE_LATENCY_EXPECTED)%Q) in *.
      assert (1 * AVERAGE_LATENCY_EXPECTED < d * AVERAGE_LATENCY_EXPECTED)%Q
        by (apply Qmult_lt_compat_r; lra).
      lra. }
    split.
    + apply Qle_shift_div_l; lra.
    + apply Qle_shift_div_r; lra.
Qed.

Lemma instabilityScore_le_1 sorted m :
  0 < m → (instabilityScore LATENCY_DEVIATION_ALLOWED sorted m <= 1)%Q.
Proof.
  intros Hm. unfold instabilityScore.
  pose proof (Qnat_ratio_range (count' sorted m) m Hm).
  set (r := (Qnat _ / Qnat m)%Q) in *. lra.
Qed.

Lemma instabilityScore_ge_0 sorted m :
  0 < m → count' sorted m ≤ m →
  (0 <= instabilityScore LATENCY_DEVIATION_ALLOWED sorted m)%Q.
Proof.
  intros Hm Hc. unfold instabilityScore.
  pose proof (Qnat_ratio_le_1 _ m Hm Hc).
  set (r := (Qnat _ / Qnat m)%Q) in *. lra.
Qed.

Lemma rawLatencyScore_le_1 sorted m : 0 < m → (raw' sorted m <= 1)%Q.
Proof.
  intros Hm. unfold rawLatencyScore.
  pose proof (pingScore_range sorted m) as Hp.
  pose proof (instabilityScore_le_1 sorted m Hm) as Hi.
  set (p := pingScore _ _ _ _) in *. set (i := instabilityScore _ _ _) in *.
  set (W := LATENCY_SCORE_INSTABILITY_WEIGHT) in *.
  assert (p * (1 - W) <= 1 * (1 - W))%Q by (apply Qmult_le_compat_r; lra).
  assert (i * W <= 1 * W)%Q by (apply Qmult_le_compat_r; lra).
  apply toFixed2_le_1. lra.
Qed.

Lemma rawLatencyScore_ge_0 sorted m :
  0 < m → count' sorted m ≤ m → (0 <= raw' sorted m)%Q.
Proof.
  intros Hm Hc. unfold rawLatencyScore.
  pose proof (pingScore_range sorted m) as Hp.
  pose proof (instabilityScore_ge_0 sorted m Hm Hc) as Hi.
  set (p := pingScore _ _ _ _) in *. set (i := instabilityScore _ _ _) in *.
  set (W := LATENCY_SCORE_INSTABILITY_WEIGHT) in *.
  assert (0 <= p * (1 - W))%Q by (apply Qmult_le_0_compat; lra).
  assert (0 <= i * W)%Q by (apply Qmult_le_0_compat; lra).
  apply toFixed2_ge_0. lra.
Qed.

Lemma latencyScoreOf_ge_0 w sorted m :
  (0 <= w <= 1)%Q → 0 < m → (0 <= latencyScoreOf' w sorted m)%Q.
Proof.
  intros Hw Hm. unfold latencyScoreOf.
  pose proof (rawLatencyScore_le_1 sorted m Hm) as Hr.
  set (r := rawLatencyScore _ _ _ _ _) in *.
  apply toFixed2_ge_0.
  destruct (Qlt_le_dec r 0) as [Hneg|Hpos].
  - assert (w * (- r) >= 0)%Q by (apply Qmult_le_0_compat; lra). lra.
  - assert (w * r <= 1 * 1)%Q by (apply Qmult_le_compat_nonneg; lra). lra.
Qed.

Lemma latencyScoreOf_le_1 w sorted m :
  (0 <= w <= 1)%Q → 0 < m → count' sorted m ≤ m →
  (latencyScoreOf' w sorted m <= 1)%Q.
Proof.
  intros Hw Hm Hc. unfold latencyScoreOf.
  pose proof (rawLatencyScore_ge_0 sorted m Hm Hc) as Hr.
  set (r := rawLatencyScore _ _ _ _ _) in *.
  assert (0 <= w * r)%Q by (apply Qmult_le_0_compat; lra).
  apply toFixed2_le_1. lra.
Qed.
End LatencyBounds.

(** ** The scorer on a record *)

Section ScorerFacts.
Variables LATENCY_DEVIATION_ALLOWED AVERAGE_LATENCY_EXPECTED : Q.
Variables HEALTH_SCORE_WEIGHT LATENCY_SCORE_WEIGHT : Q.
Variable LATENCY_SCORE_INSTABILITY_WEIGHT : Q.

Local Abbreviation score' :=
  (score LATENCY_DEVIATION_ALLOWED AVERAGE_LATENCY_EXPECTED
     HEALTH_SCORE_WEIGHT LATENCY_SCORE_WEIGHT LATENCY_SCORE_INSTABILITY_WEIGHT).
Local Abbreviation rescore' :=
  (rescore LATENCY_DEVIATION_ALLOWED AVERAGE_LATENCY_EXPECTED
     HEALTH_SCORE_WEIGHT LATENCY_SCORE_WEIGHT LATENCY_SCORE_INSTABILITY_WEIGHT).

Lemma score_few dateNow b errorBasis :
  measuresTaken (Backend.latencies b) < 2 →
  score' dateNow b errorBasis = ((0, 0, 0)%Q, b).
Proof. intros H. unfold score. by rewrite decide_True. Qed.

Lemma score_enough dateNow b errorBasis :
  2 ≤ measuresTaken (Backend.latencies b) →
  let w := timeWeight (Backend.lastError b)
             (default dateNow errorBasis - Backend.lastError b) in
  let m := measuresTaken (Backend.latencies b) in
  let sorted := js_sort (Backend.latencies b) in
  let h := healthScoreOf w (Backend.statuses b) (Backend.latencies b) in
  let l := latencyScoreOf LATENCY_DEVIATION_ALLOWED AVERAGE_LATENCY_EXPECTED
             LATENCY_SCORE_INSTABILITY_WEIGHT w sorted m in
  let s := (h * HEALTH_SCORE_WEIGHT + l * LATENCY_SCORE_WEIGHT)%Q in
  score' dateNow b errorBasis =
    ((h, l, s),
     Backend.mk (Backend.proxy b) (Backend.requestCount b)
       (Backend.requestCount b) (Backend.statuses b) sorted h l s
       (Backend.lastError b) (Backend.errorCount b)).
Proof. intros H. unfold score. rewrite decide_False by lia. reflexivity. Qed.

Lemma rescore_few now b :
  measuresTaken (Backend.latencies b) < 2 → rescore' now b = b.
Proof. intros H. unfold rescore. by rewrite score_few. Qed.
End ScorerFacts.

(** ** The tests of the repository, replayed on the model *)

Example test_score_healthy :
  returnedScore (sampleScore clock0 healthy None) == 1.
Proof. reflexivity. Qed.

Example test_score_unhealthy :
  returnedScore (sampleScore clock0 unhealthy (Some 0%Z)) == 1 # 2.
Proof. reflexivity. Qed.

Example test_less_weight_to_older_errors :
  returnedHealth (sampleScore clock0 unhealthy (Some 999%Z)) = (1 # 2)%Q
  ∧ returnedHealth (sampleScore clock0 unhealthy (Some 2000%Z)) = (3 # 5)%Q
  ∧ returnedHealth (sampleScore clock0 unhealthy (Some 4000%Z)) = (17 # 20)%Q
  ∧ returnedHealth (sampleScore clock0 unhealthy (Some 9000%Z)) = (19 # 20)%Q.
Proof. repeat split. Qed.

Example test_choose_healthy_first :
  chooseBackends testPool (seq 0 5) None = (Some 3, Some 4).
Proof. reflexivity. Qed.

Example test_ignore_tried :
  chooseBackends testPool (seq 0 5) (Some {[3; 4]}) = (Some 0, Some 1).
Proof. by vm_compute. Qed.

Example test_store_last_10_statuses :
  ∃ rs b, sampleCalls twentyCalls (balancer [0]) = Some (rs, [b])
    ∧ Backend.statuses b = replicate 10 (Some 200%Z)
    ∧ Backend.healthScore b = 1%Q.
Proof. eexists _, _. split; [by vm_compute|]. by split. Qed.

Example test_retry_on_failure :
  ∃ tracked,
    sampleFetch [rejecting; answer 502 "nooooo" 1 clock0; answer 200 "hi" 1 clock0]
      (balancer [0; 1; 2]) (GET "http://localhost/")
    = Some (Returned (Response.mk 200 "hi"), tracked)
    ∧ totalRequests tracked = 3.
Proof. eexists. split; [by vm_compute|]. reflexivity. Qed.

(** ** The decay weight (C7, C8) *)

(** C7, at the input where the code departs from it: with [lastError = 0]
    and a reference time of 500 the first operand of the chain,
    [lastError === 0 && 0], is the falsy number 0, the chain moves on to
    the elapsed-time steps and the weight is 1, not 0; the health score of
    the test record [unhealthy()] is then 0.5 instead of 1. *)
Theorem timeWeight_lastError_zero_falls_through :
  timeWeightExpr 0 500 = JsNum 1
  ∧ timeWeight 0 500 = 1%Q
  ∧ Backend.lastError unhealthy = 0%Z
  ∧ returnedHealth (sampleScore 0 unhealthy (Some 500%Z)) = (1 # 2)%Q.
Proof. repeat split. Qed.

Lemma healthAfter_few D A H L I b e :
  measuresTaken (Backend.latencies b) < 2 → healthAfter D A H L I b e = 0%Q.
Proof. intros Hm. unfold healthAfter. by rewrite score_few. Qed.

Lemma healthAfter_enough D A H L I b e :
  2 ≤ measuresTaken (Backend.latencies b) →
  healthAfter D A H L I b e =
    healthScoreOf (timeWeight (Backend.lastError b) e)
      (Backend.statuses b) (Backend.latencies b).
Proof.
  intros Hm. unfold healthAfter. rewrite score_enough by done.
  cbn [returnedHealth fst default].
  unfold id.
  by replace (Backend.lastError b + e - Backend.lastError b)%Z with e by lia.
Qed.

Lemma healthAfter_expired D A H L I b e :
  (10000 <= e)%Z → 2 ≤ measuresTaken (Backend.latencies b) →
  healthAfter D A H L I b e = 1%Q.
Proof.
  intros He Hm. rewrite healthAfter_enough by done.
  rewrite timeWeight_expired by done. unfold healthScoreOf.
  transitivity (toFixed2 1); [apply toFixed2_Qeq; ring | reflexivity].
Qed.

(** C8, as amended: for a fixed record the health score at 999 ms after
    the last error equals the one at 0 ms, it never decreases as the
    elapsed time grows, and from 10000 ms on it is exactly 1 for a record
    with at least two samples (0, the early exit, otherwise). *)
Theorem healthScore_decay_monotone D A H L I b (e1 e2 e : Z) :
  (e1 <= e2)%Z → (10000 <= e)%Z →
  healthAfter D A H L I b 999 = healthAfter D A H L I b 0
  ∧ (healthAfter D A H L I b e1 <= healthAfter D A H L I b e2)%Q
  ∧ healthAfter D A H L I b e =
      if decide (measuresTaken (Backend.latencies b) < 2) then 0%Q else 1%Q.
Proof.
  intros H12 He.
  destruct (decide (measuresTaken (Backend.latencies b) < 2)) as [Hm|Hm].
  - rewrite !healthAfter_few by done. repeat split. apply Qle_refl.
  - assert (2 ≤ measuresTaken (Backend.latencies b)) as Hm' by lia.
    rewrite !healthAfter_enough by done. split; [|split].
    + by rewrite !timeWeight_step.
    + apply healthScoreOf_antitone; [by apply timeWeight_antitone | lia].
    + rewrite <- (healthAfter_enough D A H L I) by done.
      by apply healthAfter_expired.
Qed.

Lemma healthScore_decay_monotone_witness :
  (2000 <= 4000)%Z ∧ (10000 <= 12000)%Z
  ∧ sampleHealthAfter unhealthy 999 = sampleHealthAfter unhealthy 0
  ∧ (sampleHealthAfter unhealthy 2000 <= sampleHealthAfter unhealthy 4000)%Q
  ∧ sampleHealthAfter unhealthy 12000 = 1%Q.
Proof.
  assert ((2000 <= 4000)%Z) as H1 by lia.
  assert ((10000 <= 12000)%Z) as H2 by lia.
  split; [exact H1 | split; [exact H2 |]].
  exact (healthScore_decay_monotone 50 100 (1 # 2) (1 # 2) (1 # 5)
           unhealthy 2000 4000 12000 H1 H2).
Defined.

(** C8 as stated fails on its last clause: the health score of the test
    record [unhealthy()] does not approach its un-decayed ratio 1/2; it is
    1, half a unit away, at every elapsed time from 10000 ms on. *)
Lemma healthScore_limit_is_not_undecayed_ratio :
  (undecayedHealthRatio unhealthy == 1 # 2)%Q
  ∧ ¬ ∃ T : Z, ∀ e : Z, (T <= e)%Z →
        (Math_abs (sampleHealthAfter unhealthy e
                   - undecayedHealthRatio unhealthy) < 1 # 4)%Q.
Proof.
  split; [by vm_compute|].
  intros [T HT]. specialize (HT (Z.max T 10000) (Z.le_max_l _ _)).
  unfold sampleHealthAfter in HT.
  rewrite healthAfter_expired in HT; [| lia | vm_compute; lia].
  vm_compute in HT. discriminate.
Qed.

(** ** Ranges of the scores (C3) *)

(** C3, as amended: when the expected latency is positive and the
    instability weight lies in [0,1], the health score that [score]
    returns is at most 1 and the latency score it returns is at least 0;
    the health score is at least 0 when the 5xx statuses are no more than
    the non-zero latency samples, and the latency score is at most 1 when
    the counted deviations are no more than those samples.  With two
    samples or more the two values are the ones stored in the record,
    next to their weighted sum, which has no bound of its own. *)
Theorem score_components_in_unit_interval D A H L I dateNow b errorBasis :
  (0 < A)%Q → (0 <= I <= 1)%Q →
  let m := measuresTaken (Backend.latencies b) in
  let r := score D A H L I dateNow b errorBasis in
  (returnedHealth r <= 1)%Q
  ∧ (0 <= returnedLatency r)%Q
  ∧ (errors (Backend.statuses b) ≤ m → (0 <= returnedHealth r)%Q)
  ∧ (correctedLatencyDeviationCount D (js_sort (Backend.latencies b)) m ≤ m →
     (returnedLatency r <= 1)%Q)
  ∧ (2 ≤ m →
     Backend.healthScore (snd r) = returnedHealth r
     ∧ Backend.latencyScore (snd r) = returnedLatency r
     ∧ Backend.score (snd r) = (returnedHealth r * H + returnedLatency r * L)%Q).
Proof.
  intros HA HI m r. subst r m.
  destruct (decide (measuresTaken (Backend.latencies b) < 2)) as [Hm|Hm].
  - rewrite score_few by done. cbn.
    split; [by vm_compute|]. split; [by vm_compute|].
    split; [intros _; by vm_compute|]. split; [intros _; by vm_compute|]. lia.
  - rewrite score_enough by lia.
    cbn [returnedHealth returnedLatency fst snd Backend.healthScore
         Backend.latencyScore Backend.score].
    pose proof (timeWeight_range (Backend.lastError b)
      (default dateNow errorBasis - Backend.lastError b)) as Hw.
    split; [apply healthScoreOf_le_1; [apply Hw | lia]|].
    split; [apply latencyScoreOf_ge_0; try done; lia|].
    split; [intros He; apply healthScoreOf_ge_0; try done; lia|].
    split; [intros Hc; apply latencyScoreOf_le_1; try done; lia|].
    done.
Qed.

Lemma score_components_in_unit_interval_witness :
  (0 < 100)%Q ∧ (0 <= 1 # 5 <= 1)%Q
  ∧ errors (Backend.statuses unhealthy) ≤ measuresTaken (Backend.latencies unhealthy)
  ∧ (0 <= returnedHealth (sampleScore 0 unhealthy (Some 0%Z)) <= 1)%Q
  ∧ (0 <= returnedLatency (sampleScore 0 unhealthy (Some 0%Z)) <= 1)%Q.
Proof.
  assert ((0 < 100)%Q) as HA by reflexivity.
  assert ((0 <= 1 # 5 <= 1)%Q) as HI by (split; discriminate).
  assert (errors (Backend.statuses unhealthy)
          ≤ measuresTaken (Backend.latencies unhealthy)) as He
    by (vm_compute; lia).
  assert (correctedLatencyDeviationCount 50
            (js_sort (Backend.latencies unhealthy))
            (measuresTaken (Backend.latencies unhealthy))
          ≤ measuresTaken (Backend.latencies unhealthy)) as Hc
    by (vm_compute; lia).
  pose proof (score_components_in_unit_interval 50 100 (1 # 2) (1 # 2) (1 # 5)
                0 unhealthy (Some 0%Z) HA HI) as (Hh1 & Hl0 & Hh0 & Hl1 & _).
  unfold sampleScore.
  split; [exact HA|]. split; [exact HI|]. split; [exact He|].
  split; (split; [first [exact (Hh0 He) | exact Hl0]
                 | first [exact Hh1 | exact (Hl1 Hc)]]).
Defined.

(** C3 as stated fails for the health score: after three calls answered
    500, the last within the millisecond, the single record of the pool
    holds three 5xx statuses but two non-zero latencies, and the score
    after the third answer stores the health score 1 - 3/2 = -0.5. *)
Lemma healthScore_below_zero :
  ∃ rs b, sampleCalls threeErrors (balancer [0]) = Some (rs, [b])
    ∧ errors (Backend.statuses b) = 3
    ∧ measuresTaken (Backend.latencies b) = 2
    ∧ Backend.healthScore b = (- 1 # 2)%Q
    ∧ ¬ (0 <= Backend.healthScore b <= 1)%Q.
Proof.
  eexists _, _. split; [by vm_compute|].
  repeat split; intros [H _]; by vm_compute in H.
Qed.

(** ** Alignment of the two buffers (C2) *)

Lemma length_present_le (a : JsArray) : length (present a) ≤ length a.
Proof.
  induction a as [|[x|] a IH]; cbn; [lia | | ]; unfold present in IH; lia.
Qed.

Lemma length_js_sort (a : JsArray) : length (js_sort a) = length a.
Proof.
  unfold js_sort. pose proof (length_present_le a).
  rewrite length_app, length_fmap, length_replicate.
  rewrite (Permutation_length (merge_sort_Permutation Z.le (present a))). lia.
Qed.

Lemma middleLatency_present (a : JsArray) :
  0 < measuresTaken a →
  ∃ l, js_sort a !! (measuresTaken a / 2) = Some (Some l).
Proof.
  intros Hm. unfold js_sort.
  assert (measuresTaken a / 2 < length (merge_sort Z.le (present a))) as Hlt.
  { rewrite (Permutation_length (merge_sort_Permutation Z.le (present a))).
    pose proof (length_filter (λ l : Z, l ≠ 0%Z) (present a)) as Hle.
    fold (measuresTaken a) in Hle.
    pose proof (Nat.div_lt (measuresTaken a) 2 Hm). lia. }
  destruct (lookup_lt_is_Some_2 _ _ Hlt) as [l Hl].
  exists l. rewrite lookup_app_l by (by rewrite length_fmap).
  by rewrite list_lookup_fmap, Hl.
Qed.

(** C2, at the input where the code departs from it: [score] sorts
    [latencies] in place.  On a record holding (200, 5 ms) and
    (404, 3 ms) it leaves the statuses as they were and turns the
    latencies into 3, 5; after the three calls of [threeAnswers] slot 0
    pairs the status 200 of the first answer with the latency 3 of the
    second. *)
Theorem score_sorts_latencies_in_place :
  Backend.statuses (snd (sampleScore clock0 twoSamples None))
    = Backend.statuses twoSamples
  ∧ Backend.latencies twoSamples !! 0 = Some (Some 5%Z)
  ∧ Backend.latencies (snd (sampleScore clock0 twoSamples None)) !! 0
    = Some (Some 3%Z)
  ∧ ∃ rs b, sampleCalls threeAnswers (balancer [0]) = Some (rs, [b])
      ∧ take 3 (Backend.statuses b) = [Some 200%Z; Some 404%Z; Some 200%Z]
      ∧ take 3 (Backend.latencies b) = [Some 3%Z; Some 5%Z; Some 7%Z].
Proof.
  repeat split. eexists _, _. split; [by vm_compute|]. by split.
Qed.

(** ** What one attempt does to a record *)

Lemma present_fmap_Some (l : list Z) (n : nat) :
  present ((Some <$> l) ++ replicate n None) = l.
Proof.
  unfold present. induction l as [|x l IH]; cbn.
  - induction n as [|n IHn]; cbn; auto.
  - by rewrite IH.
Qed.

Lemma present_js_sort (a : JsArray) :
  present (js_sort a) = merge_sort Z.le (present a).
Proof. unfold js_sort. apply present_fmap_Some. Qed.

Lemma measuresTaken_js_sort (a : JsArray) :
  measuresTaken (js_sort a) = measuresTaken a.
Proof.
  unfold measuresTaken. rewrite present_js_sort.
  apply Permutation_length, filter_Permutation, merge_sort_Permutation.
Qed.

Lemma js_store_mod_ring (a : JsArray) (n : nat) (v : Z) :
  length a = 10 → js_store_mod a (S n) v = <[n mod 10 := Some v]> a.
Proof.
  intros Ha. unfold js_store_mod, js_store. rewrite Ha.
  replace (S n - 1) with n by lia.
  pose proof (Nat.mod_upper_bound n 10). by rewrite decide_True by lia.
Qed.

Section AttemptFacts.
Variables LATENCY_DEVIATION_ALLOWED AVERAGE_LATENCY_EXPECTED : Q.
Variables HEALTH_SCORE_WEIGHT LATENCY_SCORE_WEIGHT : Q.
Variable LATENCY_SCORE_INSTABILITY_WEIGHT : Q.

Local Abbreviation rescore' :=
  (rescore LATENCY_DEVIATION_ALLOWED AVERAGE_LATENCY_EXPECTED
     HEALTH_SCORE_WEIGHT LATENCY_SCORE_WEIGHT LATENCY_SCORE_INSTABILITY_WEIGHT).
Local Abbreviation prepare' :=
  (prepare LATENCY_DEVIATION_ALLOWED AVERAGE_LATENCY_EXPECTED
     HEALTH_SCORE_WEIGHT LATENCY_SCORE_WEIGHT LATENCY_SCORE_INSTABILITY_WEIGHT).
Local Abbreviation after_error' :=
  (after_error LATENCY_DEVIATION_ALLOWED AVERAGE_LATENCY_EXPECTED
     HEALTH_SCORE_WEIGHT LATENCY_SCORE_WEIGHT LATENCY_SCORE_INSTABILITY_WEIGHT).
Local Abbreviation attempt' :=
  (attempt LATENCY_DEVIATION_ALLOWED AVERAGE_LATENCY_EXPECTED
     HEALTH_SCORE_WEIGHT LATENCY_SCORE_WEIGHT LATENCY_SCORE_INSTABILITY_WEIGHT).
Local Abbreviation attemptObs' :=
  (attemptObs LATENCY_DEVIATION_ALLOWED AVERAGE_LATENCY_EXPECTED
     HEALTH_SCORE_WEIGHT LATENCY_SCORE_WEIGHT LATENCY_SCORE_INSTABILITY_WEIGHT).
Local Abbreviation attempts' :=
  (attempts LATENCY_DEVIATION_ALLOWED AVERAGE_LATENCY_EXPECTED
     HEALTH_SCORE_WEIGHT LATENCY_SCORE_WEIGHT LATENCY_SCORE_INSTABILITY_WEIGHT).
Local Abbreviation history' :=
  (history LATENCY_DEVIATION_ALLOWED AVERAGE_LATENCY_EXPECTED
     HEALTH_SCORE_WEIGHT LATENCY_SCORE_WEIGHT LATENCY_SCORE_INSTABILITY_WEIGHT).

(** [score] touches the latencies and the four score fields only. *)
Lemma rescore_frame now b :
  Backend.requestCount (rescore' now b) = Backend.requestCount b
  ∧ Backend.statuses (rescore' now b) = Backend.statuses b
  ∧ length (Backend.latencies (rescore' now b)) = length (Backend.latencies b)
  ∧ measuresTaken (Backend.latencies (rescore' now b))
    = measuresTaken (Backend.latencies b)
  ∧ Backend.lastError (rescore' now b) = Backend.lastError b.
Proof.
  unfold rescore.
  destruct (decide (measuresTaken (Backend.latencies b) < 2)) as [Hm|Hm].
  - by rewrite score_few.
  - rewrite score_enough by lia.
    cbn [snd Backend.requestCount Backend.statuses Backend.latencies
         Backend.lastError].
    by rewrite length_js_sort, measuresTaken_js_sort.
Qed.

Lemma prepare_frame o b :
  Backend.requestCount (prepare' o b) = S (Backend.requestCount b)
  ∧ Backend.statuses (prepare' o b) = Backend.statuses b
  ∧ length (Backend.latencies (prepare' o b)) = length (Backend.latencies b).
Proof.
  unfold prepare.
  destruct (decide (Backend.scoredRequestCount b ≠ Backend.requestCount b));
    cbn; [|repeat split; lia].
  destruct (rescore_frame (t_rescore o) b) as (-> & -> & -> & _).
  repeat split; lia.
Qed.

Lemma attempt_frame o resp latency b :
  length (Backend.statuses b) = 10 → length (Backend.latencies b) = 10 →
  Backend.requestCount (attempt' o resp latency b) = S (Backend.requestCount b)
  ∧ Backend.statuses (attempt' o resp latency b)
    = <[Backend.requestCount b mod 10 := Some (Response.status resp)]>
        (Backend.statuses b)
  ∧ length (Backend.latencies (attempt' o resp latency b)) = 10
  ∧ Backend.latencies
      (record_observation (Response.status resp) latency (prepare' o b))
    = <[Backend.requestCount b mod 10 := Some latency]>
        (Backend.latencies (prepare' o b)).
Proof.
  intros Hs Hl. destruct (prepare_frame o b) as (Hrc & Hst & Hlen).
  assert (record_observation (Response.status resp) latency (prepare' o b)
          = Backend.with_buffers
              (<[Backend.requestCount b mod 10 := Some (Response.status resp)]>
                 (Backend.statuses b))
              (<[Backend.requestCount b mod 10 := Some latency]>
                 (Backend.latencies (prepare' o b)))
              (prepare' o b)) as Hrec.
  { unfold record_observation. rewrite Hst, Hrc, Hs.
    rewrite decide_False by lia.
    rewrite !js_store_mod_ring by congruence. done. }
  unfold attempt. rewrite Hrec.
  destruct (is5xx (Response.status resp)).
  - unfold after_error.
    destruct (rescore_frame (t_score o)
      (Backend.with_lastError (t_error o)
         (Backend.with_buffers
            (<[Backend.requestCount b mod 10 := Some (Response.status resp)]>
               (Backend.statuses b))
            (<[Backend.requestCount b mod 10 := Some latency]>
               (Backend.latencies (prepare' o b)))
            (prepare' o b)))) as (-> & -> & -> & _).
    cbn [Backend.with_lastError Backend.with_buffers Backend.requestCount
         Backend.statuses Backend.latencies].
    rewrite length_insert. repeat split; congruence.
  - cbn [Backend.with_buffers Backend.requestCount Backend.statuses
         Backend.latencies].
    rewrite length_insert. repeat split; congruence.
Qed.
End AttemptFacts.

Lemma length_js_store_mod (a : JsArray) (n : nat) (v : Z) :
  length (js_store_mod a n v) = length a.
Proof.
  unfold js_store_mod, js_store. destruct (length a) as [|k] eqn:Hk; [done|].
  pose proof (Nat.mod_upper_bound (n - 1) (S k)).
  rewrite decide_True by lia. by rewrite length_insert.
Qed.

(** The part of C2 the code keeps: an attempt leaves the two buffers of
    equal length. *)
Lemma attemptObs_equal_length D A H L I b o :
  length (Backend.statuses b) = length (Backend.latencies b) →
  length (Backend.statuses (attemptObs D A H L I b o))
  = length (Backend.latencies (attemptObs D A H L I b o)).
Proof.
  intros Heq. unfold attemptObs.
  destruct (settle o) as [[resp latency]|]; [|done].
  destruct (prepare_frame D A H L I o b) as (_ & Hst & Hlen).
  unfold attempt. set (b0 := prepare D A H L I o b) in *.
  set (b1 := record_observation _ _ _).
  assert (length (Backend.statuses b1) = length (Backend.latencies b1)) as Hb1.
  { unfold b1, record_observation. destruct (decide _);
      cbn [Backend.with_buffers Backend.statuses Backend.latencies].
    - rewrite !length_app. cbn [length]. congruence.
    - rewrite !length_js_store_mod. congruence. }
  destruct (is5xx (Response.status resp)); [|done].
  unfold after_error.
  destruct (rescore_frame D A H L I (t_score o)
              (Backend.with_lastError (t_error o) b1)) as (_ & -> & -> & _).
  done.
Qed.

(** ** The ring buffers (C4) *)

Section RingBuffer.
Variables LATENCY_DEVIATION_ALLOWED AVERAGE_LATENCY_EXPECTED : Q.
Variables HEALTH_SCORE_WEIGHT LATENCY_SCORE_WEIGHT : Q.
Variable LATENCY_SCORE_INSTABILITY_WEIGHT : Q.

Local Abbreviation attemptObs' :=
  (attemptObs LATENCY_DEVIATION_ALLOWED AVERAGE_LATENCY_EXPECTED
     HEALTH_SCORE_WEIGHT LATENCY_SCORE_WEIGHT LATENCY_SCORE_INSTABILITY_WEIGHT).
Local Abbreviation attempts' :=
  (attempts LATENCY_DEVIATION_ALLOWED AVERAGE_LATENCY_EXPECTED
     HEALTH_SCORE_WEIGHT LATENCY_SCORE_WEIGHT LATENCY_SCORE_INSTABILITY_WEIGHT).

Lemma ring_inv_new h : ring_inv [] (newBackend h).
Proof. repeat split. intros i s Hi. by rewrite lookup_nil in Hi. Qed.

Lemma mod_10_apart (i k : nat) : i < k → k ≤ i + 9 → i mod 10 ≠ k mod 10.
Proof.
  intros H1 H2 Heq.
  pose proof (Nat.div_mod_eq i 10). pose proof (Nat.div_mod_eq k 10). lia.
Qed.

Lemma ring_inv_step seen b o resp latency :
  ring_inv seen b → settle o = Some (resp, latency) →
  ring_inv (seen ++ [Response.status resp]) (attemptObs' b o).
Proof.
  intros (Hs & Hl & Hrc & Hring) Ho. unfold attemptObs. rewrite Ho.
  destruct (attempt_frame LATENCY_DEVIATION_ALLOWED AVERAGE_LATENCY_EXPECTED
              HEALTH_SCORE_WEIGHT LATENCY_SCORE_WEIGHT
              LATENCY_SCORE_INSTABILITY_WEIGHT o resp latency b Hs Hl)
    as (Hrc' & Hst' & Hl' & _).
  unfold ring_inv. rewrite Hrc', Hst', Hrc, length_insert, length_app.
  cbn [length].
  repeat split; [done | done | lia |].
  intros i s Hi Hlast.
  destruct (decide (i < length seen)) as [Hlt|Hge].
  - rewrite lookup_app_l in Hi by done.
    rewrite list_lookup_insert_ne by (apply not_eq_sym, mod_10_apart; lia).
    apply Hring; [done | lia].
  - apply lookup_lt_Some in Hi as Hi'. rewrite length_app in Hi'. cbn [length] in Hi'.
    assert (i = length seen) as -> by lia.
    rewrite lookup_app_r, Nat.sub_diag in Hi by lia. cbn in Hi.
    injection Hi as <-.
    apply list_lookup_insert_eq. rewrite Hs. by apply Nat.mod_upper_bound.
Qed.

Lemma observedStatuses_cons o os :
  observedStatuses (o :: os) =
    match settle o with
    | Some (resp, _) => Response.status resp :: observedStatuses os
    | None => observedStatuses os
    end.
Proof.
  unfold observedStatuses. cbn. by destruct (settle o) as [[resp latency]|].
Qed.

Lemma ring_inv_attempts os seen b :
  ring_inv seen b → ring_inv (seen ++ observedStatuses os) (attempts' b os).
Proof.
  revert seen b. induction os as [|o os IH]; intros seen b Hinv.
  - by rewrite app_nil_r.
  - rewrite observedStatuses_cons. unfold attempts in *. cbn [foldl].
    destruct (settle o) as [[resp latency]|] eqn:Ho.
    + rewrite cons_middle, app_assoc. apply IH. by eapply ring_inv_step.
    + unfold attemptObs at 2. rewrite Ho. by apply IH.
Qed.
End RingBuffer.

(** C4, as amended: whatever the attempts made on a freshly built record,
    both buffers keep exactly ten slots, the request count is the number
    of observations delivered, and each of the ten most recent statuses
    sits at its arrival index modulo 10 (the oldest slot is the next to
    be overwritten); a new observation is written into both buffers at
    index [requestCount mod 10], the count being the one before the
    attempt. *)
Theorem ring_buffers_keep_last_ten D A H L I h os :
  let b := attempts D A H L I (newBackend h) os in
  let seen := observedStatuses os in
  length (Backend.statuses b) = 10
  ∧ length (Backend.latencies b) = 10
  ∧ Backend.requestCount b = length seen
  ∧ (∀ i s, seen !! i = Some s → length seen ≤ i + 10 →
       Backend.statuses b !! (i mod 10) = Some (Some s))
  ∧ (∀ o resp latency, settle o = Some (resp, latency) →
       Backend.statuses (attemptObs D A H L I b o)
         = <[Backend.requestCount b mod 10 := Some (Response.status resp)]>
             (Backend.statuses b)
       ∧ Backend.latencies
           (record_observation (Response.status resp) latency
              (prepare D A H L I o b))
         = <[Backend.requestCount b mod 10 := Some latency]>
             (Backend.latencies (prepare D A H L I o b))).
Proof.
  intros b seen.
  destruct (ring_inv_attempts D A H L I os [] (newBackend h) (ring_inv_new h))
    as (Hs & Hl & Hrc & Hring).
  fold b in Hs, Hl, Hrc, Hring. cbn [app] in Hrc, Hring. fold seen in Hrc, Hring.
  split; [done|]. split; [done|]. split; [done|]. split; [done|].
  intros o resp latency Ho.
  destruct (attempt_frame D A H L I o resp latency b Hs Hl)
    as (_ & Hst & _ & Hlat).
  split; [unfold attemptObs; by rewrite Ho | done].
Qed.

Lemma ring_buffers_keep_last_ten_witness :
  observedStatuses elevenAnswers !! 10 = Some 211%Z
  ∧ length (observedStatuses elevenAnswers) ≤ 10 + 10
  ∧ Backend.statuses
      (attempts 50 100 (1 # 2) (1 # 2) (1 # 5) (newBackend 0) elevenAnswers)
      !! (10 mod 10) = Some (Some 211%Z).
Proof.
  assert (observedStatuses elevenAnswers !! 10 = Some 211%Z) as H1
    by reflexivity.
  assert (length (observedStatuses elevenAnswers) ≤ 10 + 10) as H2
    by (vm_compute; lia).
  split; [exact H1 | split; [exact H2 |]].
  destruct (ring_buffers_keep_last_ten 50 100 (1 # 2) (1 # 2) (1 # 5) 0
              elevenAnswers) as (_ & _ & _ & Hring & _).
  exact (Hring 10 211%Z H1 H2).
Defined.

(** C4 as stated fails on the order of the contents: after eleven calls
    answered 201, ..., 211 the status buffer starts with the newest
    status, so it is not the list of the ten most recent statuses in
    arrival order. *)
Lemma statuses_not_in_arrival_order :
  ∃ rs b,
    sampleCalls ((λ o, ([o], GET "/")) <$> elevenAnswers) (balancer [0])
      = Some (rs, [b])
    ∧ Backend.requestCount b = 11
    ∧ present (Backend.statuses b)
      = [211; 202; 203; 204; 205; 206; 207; 208; 209; 210]%Z
    ∧ present (Backend.statuses b)
      ≠ drop 1 (observedStatuses elevenAnswers).
Proof.
  eexists _, _. split; [by vm_compute|].
  split; [reflexivity|]. split; [reflexivity|]. by vm_compute.
Qed.

(** ** Records with fewer than two samples *)

Section Unmeasured.
Variables LATENCY_DEVIATION_ALLOWED AVERAGE_LATENCY_EXPECTED : Q.
Variables HEALTH_SCORE_WEIGHT LATENCY_SCORE_WEIGHT : Q.
Variable LATENCY_SCORE_INSTABILITY_WEIGHT : Q.

Local Abbreviation rescore' :=
  (rescore LATENCY_DEVIATION_ALLOWED AVERAGE_LATENCY_EXPECTED
     HEALTH_SCORE_WEIGHT LATENCY_SCORE_WEIGHT LATENCY_SCORE_INSTABILITY_WEIGHT).
Local Abbreviation attemptObs' :=
  (attemptObs LATENCY_DEVIATION_ALLOWED AVERAGE_LATENCY_EXPECTED
     HEALTH_SCORE_WEIGHT LATENCY_SCORE_WEIGHT LATENCY_SCORE_INSTABILITY_WEIGHT).
Local Abbreviation attempts' :=
  (attempts LATENCY_DEVIATION_ALLOWED AVERAGE_LATENCY_EXPECTED
     HEALTH_SCORE_WEIGHT LATENCY_SCORE_WEIGHT LATENCY_SCORE_INSTABILITY_WEIGHT).
Local Abbreviation history' :=
  (history LATENCY_DEVIATION_ALLOWED AVERAGE_LATENCY_EXPECTED
     HEALTH_SCORE_WEIGHT LATENCY_SCORE_WEIGHT LATENCY_SCORE_INSTABILITY_WEIGHT).

(** A rescoring that leaves fewer than two samples behind found fewer
    than two, and did nothing. *)
Lemma rescore_unmeasured now b :
  measuresTaken (Backend.latencies (rescore' now b)) < 2 → rescore' now b = b.
Proof.
  intros Hm. apply rescore_few.
  by destruct (rescore_frame LATENCY_DEVIATION_ALLOWED AVERAGE_LATENCY_EXPECTED
                 HEALTH_SCORE_WEIGHT LATENCY_SCORE_WEIGHT
                 LATENCY_SCORE_INSTABILITY_WEIGHT now b) as (_ & _ & _ & <- & _).
Qed.

Lemma attemptObs_unmeasured b o :
  measuresTaken (Backend.latencies b) < 2 →
  measuresTaken (Backend.latencies (attemptObs' b o)) < 2 →
  scoreFields (attemptObs' b o) = scoreFields b.
Proof.
  intros Hb. unfold attemptObs.
  destruct (settle o) as [[resp latency]|]; [|done].
  unfold attempt, prepare. rewrite (rescore_few _ _ _ _ _ _ b Hb).
  assert ((if decide (Backend.scoredRequestCount b ≠ Backend.requestCount b)
           then b else b) = b) as -> by (by destruct (decide _)).
  set (b1 := record_observation _ _ _).
  assert (scoreFields b1 = scoreFields b) as Hb1.
  { unfold b1, record_observation. by destruct (decide _). }
  destruct (is5xx (Response.status resp)); [|by intros _].
  unfold after_error. intros Hm. by rewrite rescore_unmeasured.
Qed.

Lemma attempts_unmeasured os b :
  measuresTaken (Backend.latencies b) < 2 →
  Forall (λ b', measuresTaken (Backend.latencies b') < 2) (history' b os) →
  scoreFields (attempts' b os) = scoreFields b.
Proof.
  revert b. induction os as [|o os IH]; intros b Hb Hall; [done|].
  cbn [history] in Hall. apply Forall_cons in Hall as [Ho Hall].
  unfold attempts in *. cbn [foldl]. rewrite IH by done.
  by apply attemptObs_unmeasured.
Qed.
End Unmeasured.

Lemma Qeq_bool_false (x y : Q) :
  (x < y)%Q → Qeq_bool x y = false ∧ Qeq_bool y x = false.
Proof.
  intros H. split.
  - destruct (Qeq_bool x y) eqn:He; [|done]. apply Qeq_bool_iff in He. lra.
  - destruct (Qeq_bool y x) eqn:He; [|done]. apply Qeq_bool_iff in He. lra.
Qed.

Lemma beats_lower_score (x y : Backend.t) :
  (Backend.score y < Backend.score x)%Q → beats y x = false ∧ beats x y = true.
Proof.
  intros H. unfold beats, Qlt_bool. split.
  - rewrite (proj1 (Qeq_bool_false _ _ H)).
    assert (Qle_bool (Backend.score y) (Backend.score x) = true) as ->
      by (apply Qle_bool_iff; lra).
    done.
  - destruct (Qle_bool (Backend.score x) (Backend.score y)) eqn:Hle; [|done].
    apply Qle_bool_iff in Hle. lra.
Qed.

(** ** The selector (C1) *)

Lemma Qlt_bool_true (x y : Q) : Qlt_bool x y = true ↔ (x < y)%Q.
Proof.
  unfold Qlt_bool. destruct (Qle_bool y x) eqn:H; cbn.
  - apply Qle_bool_iff in H. split; [done | lra].
  - apply Qle_bool_false in H. by split.
Qed.

Lemma beats_true (x y : Backend.t) :
  beats x y = true ↔
    (Backend.score y < Backend.score x)%Q
    ∨ ((Backend.score x == Backend.score y)%Q
       ∧ Backend.requestCount x < Backend.requestCount y).
Proof.
  unfold beats. rewrite orb_true_iff, andb_true_iff, Qlt_bool_true,
    Qeq_bool_iff, Nat.ltb_lt. done.
Qed.

Lemma beats_false (x y : Backend.t) :
  beats x y = false ↔
    (Backend.score x < Backend.score y)%Q
    ∨ ((Backend.score x == Backend.score y)%Q
       ∧ Backend.requestCount y ≤ Backend.requestCount x).
Proof.
  rewrite <- not_true_iff_false, beats_true. split.
  - intros Hn.
    destruct (Qlt_le_dec (Backend.score x) (Backend.score y)) as [Hlt|Hle];
      [by left|right].
    assert ((Backend.score x == Backend.score y)%Q) as Heq.
    { apply Qle_antisym; [|done]. apply Qnot_lt_le. intros Hlt. apply Hn. by left. }
    split; [done|]. apply Nat.nlt_ge. intros Hlt. apply Hn. by right.
  - intros [Hlt|[Heq Hle]] [Hlt'|[Heq' Hlt']]; try lra; lia.
Qed.

(** The test of [bestBackend] is a strict order on (score, request count)
    keys; the three facts the selection argument needs. *)
Ltac order_cases :=
  repeat match goal with
         | H : _ ∨ _ |- _ => destruct H
         | H : _ ∧ _ |- _ => destruct H
         end;
  first [left; lra | right; split; [lra | lia]].

Lemma beats_asym (x y : Backend.t) : beats x y = true → beats y x = false.
Proof. rewrite beats_true, beats_false. intros H. order_cases. Qed.

Lemma beats_irrefl (x : Backend.t) : beats x x = false.
Proof. rewrite beats_false. right. split; [reflexivity | lia]. Qed.

Lemma beats_below (x y z : Backend.t) :
  beats x y = true → beats z y = false → beats z x = false.
Proof. rewrite beats_true, !beats_false. intros H1 H2. order_cases. Qed.

Lemma beats_between (b o c : Backend.t) :
  beats b o = false → beats b c = true → beats c o = false.
Proof. rewrite beats_true, !beats_false. intros H1 H2. order_cases. Qed.

Section SelectorFacts.
Variable store : list Backend.t.

Local Abbreviation rec := (deref store).

Lemma chooseStep_skip attempted st b :
  was_attempted attempted b = true → chooseStep store attempted st b = st.
Proof. intros H. unfold chooseStep. by rewrite H. Qed.

Lemma chooseStep_untried attempted st b :
  was_attempted attempted b = false →
  chooseStep store attempted st b = chooseStep store None st b.
Proof. intros H. unfold chooseStep. by rewrite H. Qed.

Lemma chooseBackends_untried backends attempted st :
  foldl (chooseStep store attempted) st backends
  = foldl (chooseStep store None) st (untried attempted backends).
Proof.
  revert st. induction backends as [|b backends IH]; intros st; [done|].
  unfold untried in *. cbn [foldl]. rewrite filter_cons.
  destruct (was_attempted attempted b) eqn:Hb.
  - rewrite decide_False by done. rewrite chooseStep_skip by done. apply IH.
  - rewrite decide_True by done. cbn [foldl].
    rewrite chooseStep_untried by done. apply IH.
Qed.

Lemma lookup_snoc_Some (l : list nat) (b : nat) k z :
  (l ++ [b]) !! k = Some z →
  (k < length l ∧ l !! k = Some z) ∨ (k = length l ∧ z = b).
Proof.
  intros H. destruct (decide (k < length l)) as [Hlt|Hge].
  - left. by rewrite lookup_app_l in H.
  - right. apply lookup_lt_Some in H as Hk. rewrite length_app in Hk.
    cbn [length] in Hk. assert (k = length l) as -> by lia.
    rewrite lookup_app_r, Nat.sub_diag in H by lia. cbn in H.
    split; congruence.
Qed.

Lemma lookup_snoc_old (l : list nat) (b : nat) i r :
  l !! i = Some r → (l ++ [b]) !! i = Some r.
Proof. intros H. rewrite lookup_app_l; [done|]. by eapply lookup_lt_Some. Qed.

Lemma lookup_snoc_new (l : list nat) (b : nat) : (l ++ [b]) !! length l = Some b.
Proof. by rewrite lookup_app_r, Nat.sub_diag by lia. Qed.

Lemma TwoBest_step l st b :
  TwoBest store l st → TwoBest store (l ++ [b]) (chooseStep store None st b).
Proof.
  intros [->| r -> | i j r1 r2 Hij Hi Hj Hrest]; cbn [chooseStep was_attempted].
  - by apply TwoBest_one.
  - apply (TwoBest_both store _ 0 1); [done..|].
    intros k z Hk0 Hk1 Hk. destruct k as [|[|k]]; done.
  - apply lookup_lt_Some in Hi as Hilt. apply lookup_lt_Some in Hj as Hjlt.
    unfold bestBackend.
    destruct (beats (rec b) (rec r1)) eqn:Hb1.
    + (* the newcomer replaces b1 *)
      rewrite decide_True
        by (intros ->; rewrite beats_irrefl in Hb1; discriminate).
      destruct (beats (rec r1) (rec r2)) eqn:H12.
      * apply (TwoBest_both store _ (length l) i);
          [lia | apply lookup_snoc_new | by apply lookup_snoc_old |].
        intros k z Hkn Hki Hk.
        apply lookup_snoc_Some in Hk as [[Hklt Hk]|[-> ->]]; [|done].
        destruct (decide (k = j)) as [->|Hkj].
        -- assert (z = r2) as -> by congruence.
           pose proof (beats_asym _ _ H12). eauto using beats_below.
        -- destruct (Hrest k z Hki Hkj Hk). eauto using beats_below.
      * apply (TwoBest_both store _ (length l) j);
          [lia | apply lookup_snoc_new | by apply lookup_snoc_old |].
        intros k z Hkn Hkj Hk.
        apply lookup_snoc_Some in Hk as [[Hklt Hk]|[-> ->]]; [|done].
        destruct (decide (k = i)) as [->|Hki].
        -- assert (z = r1) as -> by congruence.
           eauto using beats_asym.
        -- destruct (Hrest k z Hki Hkj Hk). eauto using beats_below.
    + (* b1 stays *)
      rewrite decide_False by (intros Hne; by apply Hne).
      destruct (beats (rec b) (rec r2)) eqn:Hb2.
      * apply (TwoBest_both store _ i (length l));
          [lia | by apply lookup_snoc_old | apply lookup_snoc_new |].
        intros k z Hki Hkn Hk.
        apply lookup_snoc_Some in Hk as [[Hklt Hk]|[-> ->]]; [|done].
        destruct (decide (k = j)) as [->|Hkj].
        -- assert (z = r2) as -> by congruence.
           eauto using beats_asym, beats_between.
        -- destruct (Hrest k z Hki Hkj Hk). eauto using beats_below.
      * apply (TwoBest_both store _ i j);
          [done | by apply lookup_snoc_old | by apply lookup_snoc_old |].
        intros k z Hki Hkj Hk.
        apply lookup_snoc_Some in Hk as [[Hklt Hk]|[-> ->]].
        -- by apply (Hrest k z).
        -- by split.
Qed.

Lemma TwoBest_foldl l' l st :
  TwoBest store l st →
  TwoBest store (l ++ l') (foldl (chooseStep store None) st l').
Proof.
  revert l st. induction l' as [|b l' IH]; intros l st Hst; cbn [foldl].
  - by rewrite app_nil_r.
  - rewrite cons_middle, app_assoc. apply IH. by apply TwoBest_step.
Qed.

Lemma chooseBackends_TwoBest backends attempted :
  TwoBest store (untried attempted backends)
    (chooseBackends store backends attempted).
Proof.
  unfold chooseBackends. rewrite chooseBackends_untried.
  apply (TwoBest_foldl _ []). by apply TwoBest_none.
Qed.

Lemma TwoBest_elem l r1 r2 r :
  TwoBest store l (r1, r2) → r1 = Some r ∨ r2 = Some r → r ∈ l.
Proof.
  intros Hst Hr. inversion Hst; subst.
  - by destruct Hr.
  - destruct Hr as [[= ->]|?]; [|done]. by apply list_elem_of_singleton.
  - destruct Hr as [[= ->]|[= ->]]; by eapply list_elem_of_lookup_2.
Qed.
End SelectorFacts.

(** C1: [chooseBackends] returns the records at two different positions
    of the untried part of [backends] (one, or none, when that is all
    there is), no other untried record beats either of them, where to
    beat is to have the higher score or the same score and the lower
    request count, and a returned record is never in the attempted set. *)
Theorem chooseBackends_two_best_untried store backends attempted :
  TwoBest store (untried attempted backends)
    (chooseBackends store backends attempted)
  ∧ ∀ r, (chooseBackends store backends attempted).1 = Some r
         ∨ (chooseBackends store backends attempted).2 = Some r →
      r ∈ backends ∧ was_attempted attempted r = false
      ∧ ∀ s, attempted = Some s → r ∉ s.
Proof.
  pose proof (chooseBackends_TwoBest store backends attempted) as Hst.
  split; [done|]. intros r Hr.
  destruct (chooseBackends store backends attempted) as [r1 r2].
  pose proof (TwoBest_elem store _ r1 r2 r Hst Hr) as Hin.
  unfold untried in Hin. apply list_elem_of_filter in Hin as [Hna Hin].
  repeat split; [done..|].
  intros s ->. cbn in Hna. by apply bool_decide_eq_false in Hna.
Qed.

(** ** Unmeasured records and the selector (C10) *)

(** An untried record with a higher score than a returned one is
    returned as well. *)
Lemma higher_score_selected store backends attempted k x r :
  untried attempted backends !! k = Some x →
  (chooseBackends store backends attempted).1 = Some r
  ∨ (chooseBackends store backends attempted).2 = Some r →
  (Backend.score (deref store r) < Backend.score (deref store x))%Q →
  (chooseBackends store backends attempted).1 = Some x
  ∨ (chooseBackends store backends attempted).2 = Some x.
Proof.
  intros Hk Hr Hlt.
  pose proof (chooseBackends_TwoBest store backends attempted) as Hst.
  destruct (chooseBackends store backends attempted) as [o1 o2].
  cbn [fst snd] in *. destruct (beats_lower_score _ _ Hlt) as [_ Hbeats].
  inversion Hst as [Hl|r0 Hl|i j r1 r2 Hij Hi Hj Hrest]; subst.
  - by destruct Hr.
  - rewrite Hl in Hk. destruct k as [|k]; [|done]. left. by injection Hk as ->.
  - destruct (decide (k = i)) as [->|Hki]; [left; congruence|].
    destruct (decide (k = j)) as [->|Hkj]; [right; congruence|].
    destruct (Hrest k x Hki Hkj Hk) as [H1 H2].
    destruct Hr as [[= ->]|[= ->]]; congruence.
Qed.

(** C10, as amended: on any record whose latencies hold fewer than two
    non-zero samples [score] changes nothing, and a dispatch attempt after
    which it still holds fewer than two leaves its health score, latency
    score, score and scored request count as they were.  So a record built
    by [balancer] that has held fewer than two such samples after every
    attempt made on it still has the three scores 1 and the scored request
    count 0; [bestBackend] picks it over any record whose score is below
    1, in either argument order; and while it is untried [chooseBackends]
    returns no record with a score below 1 without returning it too. *)
Theorem unmeasured_backend_keeps_defaults D A H L I h os :
  Forall (λ b, measuresTaken (Backend.latencies b) < 2)
    (history D A H L I (newBackend h) os) →
  let b := attempts D A H L I (newBackend h) os in
  Backend.healthScore b = 1%Q
  ∧ Backend.latencyScore b = 1%Q
  ∧ Backend.score b = 1%Q
  ∧ Backend.scoredRequestCount b = 0
  ∧ (∀ now errorBasis, snd (score D A H L I now b errorBasis) = b)
  ∧ (∀ store x y, deref store x = b →
       (Backend.score (deref store y) < 1)%Q →
       beats (deref store y) (deref store x) = false
       ∧ bestBackend store x y = x ∧ bestBackend store y x = x)
  ∧ (∀ store backends attempted k x y, deref store x = b →
       untried attempted backends !! k = Some x →
       (chooseBackends store backends attempted).1 = Some y
       ∨ (chooseBackends store backends attempted).2 = Some y →
       (Backend.score (deref store y) < 1)%Q →
       (chooseBackends store backends attempted).1 = Some x
       ∨ (chooseBackends store backends attempted).2 = Some x)
  ∧ (∀ b0 o, measuresTaken (Backend.latencies b0) < 2 →
       (∀ now errorBasis, snd (score D A H L I now b0 errorBasis) = b0)
       ∧ (measuresTaken (Backend.latencies (attemptObs D A H L I b0 o)) < 2 →
          scoreFields (attemptObs D A H L I b0 o) = scoreFields b0)).
Proof.
  intros Hall b.
  assert (measuresTaken (Backend.latencies (newBackend h)) < 2) as H0
    by (vm_compute; lia).
  pose proof (attempts_unmeasured D A H L I os (newBackend h) H0 Hall) as Hf.
  fold b in Hf. injection Hf as Hh Hl Hs Hn.
  assert (measuresTaken (Backend.latencies b) < 2) as Hb.
  { destruct os as [|o os] using rev_ind; [done|].
    rewrite Forall_forall in Hall. apply Hall. unfold b, attempts.
    rewrite foldl_snoc. clear. generalize (newBackend h) as b0.
    induction os as [|o' os IH]; intros b0; cbn; [by left|].
    right. apply IH. }
  split; [done|]. split; [done|]. split; [done|]. split; [done|].
  split; [intros now eb; by rewrite score_few|].
  split; [|split].
  - intros store x y Hx Hy. unfold bestBackend. rewrite Hx.
    rewrite <- Hs in Hy. destruct (beats_lower_score _ _ Hy) as [-> ->]. done.
  - intros store backends attempted k x y Hx Hk Hy Hlow.
    apply (higher_score_selected store backends attempted k x y Hk Hy).
    by rewrite Hx, Hs.
  - intros b0 o Hb0. split; [intros now eb; by rewrite score_few|].
    intros Hafter. by apply attemptObs_unmeasured.
Qed.

Lemma unmeasured_backend_keeps_defaults_witness :
  Forall (λ b, measuresTaken (Backend.latencies b) < 2)
    (history 50 100 (1 # 2) (1 # 2) (1 # 5) (newBackend 0) noSamples)
  ∧ Backend.requestCount
      (attempts 50 100 (1 # 2) (1 # 2) (1 # 5) (newBackend 0) noSamples) = 2
  ∧ Backend.score
      (attempts 50 100 (1 # 2) (1 # 2) (1 # 5) (newBackend 0) noSamples) = 1%Q
  ∧ Backend.scoredRequestCount
      (attempts 50 100 (1 # 2) (1 # 2) (1 # 5) (newBackend 0) noSamples) = 0.
Proof.
  assert (Forall (λ b, measuresTaken (Backend.latencies b) < 2)
            (history 50 100 (1 # 2) (1 # 2) (1 # 5) (newBackend 0) noSamples))
    as H1 by (repeat constructor; vm_compute; lia).
  split; [exact H1|]. split; [reflexivity|].
  destruct (unmeasured_backend_keeps_defaults 50 100 (1 # 2) (1 # 2) (1 # 5)
              0 noSamples H1) as (_ & _ & Hs & Hn & _).
  split; [exact Hs | exact Hn].
Defined.

(** C10 as stated fails for a record that was measured before: after two
    answers 500 of 5 ms and seventeen rejected promises the record built by
    [balancer] holds a single non-zero latency, so fewer than two, yet its
    health score is -4, its score -2 and its scored request count 18, the
    values of its last scoring; [bestBackend] prefers the measured test
    record [unhealthy()], whose score 0.5 is below 1, to it. *)
Lemma stale_scores_outlive_the_samples :
  measuresTaken
    (Backend.latencies
       (attempts 50 100 (1 # 2) (1 # 2) (1 # 5) (newBackend 0)
          measuredThenRejected)) = 1
  ∧ scoreFields
      (attempts 50 100 (1 # 2) (1 # 2) (1 # 5) (newBackend 0)
         measuredThenRejected)
    = ((-4)%Q, 0%Q, (-8 # 4)%Q, 18)
  ∧ scoreFields
      (attempts 50 100 (1 # 2) (1 # 2) (1 # 5) (newBackend 0)
         measuredThenRejected)
    ≠ scoreFields (newBackend 0)
  ∧ (Backend.score unhealthy < 1)%Q
  ∧ bestBackend
      [attempts 50 100 (1 # 2) (1 # 2) (1 # 5) (newBackend 0)
         measuredThenRejected; unhealthy] 0 1 = 1
  ∧ bestBackend
      [attempts 50 100 (1 # 2) (1 # 2) (1 # 5) (newBackend 0)
         measuredThenRejected; unhealthy] 1 0 = 1.
Proof.
  split; [by vm_compute|]. split; [by vm_compute|].
  split; [by vm_compute|]. split; [reflexivity|].
  split; by vm_compute.
Qed.

(** ** The dispatch loop (C5, C6, C9) *)

Lemma untried_seq_nonempty (n : nat) (attempted : gset nat) :
  size attempted < n → untried (Some attempted) (seq 0 n) ≠ [].
Proof.
  intros Hsize Hnil.
  assert (list_to_set (seq 0 n) ⊆ attempted) as Hsub.
  { intros i Hi. apply elem_of_list_to_set in Hi.
    destruct (decide (i ∈ attempted)) as [|Hni]; [done|].
    assert (i ∈ untried (Some attempted) (seq 0 n)) as Hin.
    { apply list_elem_of_filter. split; [|done]. cbn.
      by apply bool_decide_eq_false. }
    rewrite Hnil in Hin. by apply elem_of_nil in Hin. }
  apply subseteq_size in Hsub.
  rewrite size_list_to_set, length_seq in Hsub by apply NoDup_seq. lia.
Qed.

(** With an untried record left the selector finds one; whatever it
    returns is an index of the pool that was not attempted. *)
Lemma chooseBackends_pool store (attempted : gset nat) :
  size attempted < length store →
  ∃ a ob, chooseBackends store (seq 0 (length store)) (Some attempted) = (Some a, ob)
    ∧ ∀ r, Some a = Some r ∨ ob = Some r → r < length store ∧ r ∉ attempted.
Proof.
  intros Hsize.
  pose proof (chooseBackends_TwoBest store (seq 0 (length store)) (Some attempted))
    as Hst.
  pose proof (untried_seq_nonempty _ _ Hsize) as Hne.
  destruct (chooseBackends store (seq 0 (length store)) (Some attempted))
    as [a ob] eqn:Hc.
  assert (∀ r, a = Some r ∨ ob = Some r → r < length store ∧ r ∉ attempted)
    as Hvalid.
  { intros r Hr. pose proof (TwoBest_elem store _ a ob r Hst Hr) as Hin.
    apply list_elem_of_filter in Hin as [Hna Hin]. cbn in Hna.
    apply bool_decide_eq_false in Hna. apply elem_of_seq in Hin.
    split; [clear -Hin; lia | done]. }
  inversion Hst; subst; [done|..]; eauto.
Qed.

Lemma sum_list_insert (f : Backend.t → nat) (l : list Backend.t) i b b' :
  l !! i = Some b →
  sum_list (f <$> <[i := b']> l) + f b = sum_list (f <$> l) + f b'.
Proof.
  revert i. induction l as [|x l IH]; intros [|i] Hi; try done; simpl in *.
  - injection Hi as ->. lia.
  - specialize (IH i Hi). unfold fmap in IH. lia.
Qed.

Lemma deref_lookup store i b : store !! i = Some b → deref store i = b.
Proof. intros H. unfold deref. by rewrite H. Qed.

Section DispatchFacts.
Variables LATENCY_DEVIATION_ALLOWED AVERAGE_LATENCY_EXPECTED : Q.
Variables HEALTH_SCORE_WEIGHT LATENCY_SCORE_WEIGHT : Q.
Variable LATENCY_SCORE_INSTABILITY_WEIGHT : Q.

Local Abbreviation attempt' :=
  (attempt LATENCY_DEVIATION_ALLOWED AVERAGE_LATENCY_EXPECTED
     HEALTH_SCORE_WEIGHT LATENCY_SCORE_WEIGHT LATENCY_SCORE_INSTABILITY_WEIGHT).
Local Abbreviation dispatch' :=
  (dispatch LATENCY_DEVIATION_ALLOWED AVERAGE_LATENCY_EXPECTED
     HEALTH_SCORE_WEIGHT LATENCY_SCORE_WEIGHT LATENCY_SCORE_INSTABILITY_WEIGHT).

Lemma attempt_requestCount o resp latency b :
  Backend.requestCount (attempt' o resp latency b) = S (Backend.requestCount b).
Proof.
  destruct (prepare_frame LATENCY_DEVIATION_ALLOWED AVERAGE_LATENCY_EXPECTED
              HEALTH_SCORE_WEIGHT LATENCY_SCORE_WEIGHT
              LATENCY_SCORE_INSTABILITY_WEIGHT o b) as (Hrc & _).
  unfold attempt.
  set (b1 := record_observation _ _ _).
  assert (Backend.requestCount b1 = S (Backend.requestCount b)) as Hb1.
  { unfold b1, record_observation. by destruct (decide _). }
  destruct (is5xx (Response.status resp)); [|done].
  unfold after_error.
  by destruct (rescore_frame LATENCY_DEVIATION_ALLOWED AVERAGE_LATENCY_EXPECTED
                 HEALTH_SCORE_WEIGHT LATENCY_SCORE_WEIGHT
                 LATENCY_SCORE_INSTABILITY_WEIGHT (t_score o)
                 (Backend.with_lastError (t_error o) b1)) as (-> & _).
Qed.

Lemma dispatch_done env req tracked attempted :
  ¬ size attempted < length tracked →
  dispatch' env req tracked attempted = Some (Returned proxyError, tracked).
Proof. intros H. destruct env; cbn; by rewrite decide_False. Qed.

(** One turn of the loop, with the record the selector and the coin
    settle on. *)
Lemma dispatch_turn o env req tracked attempted :
  size attempted < length tracked →
  ∃ r b, (r < length tracked) ∧ (r ∉ attempted) ∧ (tracked !! r = Some b)
    ∧ dispatch' (o :: env) req tracked attempted =
        match settle o with
        | None => Some (Raised, tracked)
        | Some (resp, latency) =>
            if is5xx (Response.status resp) && canRetry req resp
            then dispatch' env req (<[r := (attempt' o resp latency b)]> tracked)
                   ({[r]} ∪ attempted)
            else Some (Returned resp, <[r := (attempt' o resp latency b)]> tracked)
        end.
Proof.
  intros Hsize.
  destruct (chooseBackends_pool tracked attempted Hsize) as (a & ob & Hc & Hvalid).
  set (r := match ob with
            | None => a
            | Some backendB => if coin o then a else backendB
            end).
  assert (r < length tracked ∧ r ∉ attempted) as [Hr Hna].
  { unfold r. destruct ob as [backendB|]; [destruct (coin o)|]; apply Hvalid; auto. }
  destruct (lookup_lt_is_Some_2 tracked r Hr) as [b Hb].
  exists r, b. repeat split; [done..|].
  cbn [dispatch]. rewrite decide_True by done. rewrite Hc. fold r.
  by rewrite (deref_lookup _ _ _ Hb).
Qed.

Lemma size_attempted_add (r : nat) (attempted : gset nat) :
  r ∉ attempted → size ({[r]} ∪ attempted) = S (size attempted).
Proof.
  intros Hr. rewrite size_union, size_singleton; [done|].
  intros i Hi%elem_of_singleton. by subst.
Qed.

(** Once every record has been attempted the loop is over. *)
Lemma pool_exhausted (tracked : list Backend.t) (attempted : gset nat) i b :
  (∀ j, j ∈ attempted → j < length tracked) →
  ¬ size attempted < length tracked →
  tracked !! i = Some b → i ∈ attempted.
Proof.
  intros Hvalid Hdone Hb.
  assert (attempted ⊆ list_to_set (seq 0 (length tracked))) as Hsub.
  { intros j Hj. apply elem_of_list_to_set, elem_of_seq.
    specialize (Hvalid j Hj). lia. }
  assert (size (list_to_set (seq 0 (length tracked)) : gset nat)
          ≤ size attempted) as Hle.
  { rewrite size_list_to_set, length_seq by apply NoDup_seq. lia. }
  rewrite (set_subseteq_size_eq _ _ Hsub Hle).
  apply elem_of_list_to_set, elem_of_seq. apply lookup_lt_Some in Hb. lia.
Qed.

Lemma dispatch_done_spec env req tracked attempted :
  (∀ i, i ∈ attempted → i < length tracked) →
  ¬ size attempted < length tracked →
  LoopSpec env req tracked attempted (dispatch' env req tracked attempted).
Proof.
  intros Hvalid Hdone. exists (Returned proxyError), tracked.
  split; [by apply dispatch_done|]. split; [done|]. split; [done|].
  split; [intros i b b' Hb Hb'; left; congruence|].
  split; [by eexists|]. intros _ _. split; [done|].
  intros i b b' Hi Hb. exfalso. eauto using pool_exhausted.
Qed.

(** The loop ends within as many turns as records are left untried. *)
Lemma dispatch_spec env req tracked attempted :
  (∀ i, i ∈ attempted → i < length tracked) →
  length tracked - size attempted ≤ length env →
  LoopSpec env req tracked attempted (dispatch' env req tracked attempted).
Proof.
  revert tracked attempted.
  induction env as [|o env IH]; intros tracked attempted Hvalid Hfuel;
    (destruct (decide (size attempted < length tracked)) as [Hsize|Hdone];
     [|by apply dispatch_done_spec]).
  { cbn [length] in Hfuel. lia. }
  destruct (dispatch_turn o env req tracked attempted Hsize)
    as (r & b & Hr & Hna & Hb & ->).
  destruct (settle o) as [[resp latency]|] eqn:Ho.
  2:{ exists Raised, tracked. split; [done|].
      split; [done|]. split; [done|].
      split; [intros i b0 b' Hb0 Hb'; left; congruence|].
      split.
      - intros Hall. apply Forall_cons in Hall as [Hno _].
        unfold settle in Ho. by destruct (reply o).
      - intros Hall. apply Forall_cons in Hall as [(resp & latency & Hs & _) _].
        congruence. }
  set (b1 := attempt' o resp latency b).
  assert (Backend.requestCount b1 = S (Backend.requestCount b)) as Hrc
    by apply attempt_requestCount.
  destruct (is5xx (Response.status resp) && canRetry req resp) eqn:Hretry.
  - (* continue *)
    destruct (IH (<[r := b1]> tracked) ({[r]} ∪ attempted))
      as (res & tracked' & Hrun & Hlen & Hkeep & Hcount & Hret & Hall).
    { intros i Hi. rewrite length_insert.
      apply elem_of_union in Hi as [Hi|Hi]; [|by apply Hvalid].
      apply elem_of_singleton in Hi as ->. done. }
    { rewrite length_insert, size_attempted_add by done.
      cbn [length] in Hfuel. lia. }
    rewrite length_insert in Hlen.
    exists res, tracked'. split; [done|]. split; [done|].
    assert (tracked' !! r = Some b1) as Hr'.
    { rewrite Hkeep by (by apply elem_of_union_l, elem_of_singleton).
      by apply list_lookup_insert_eq. }
    split; [|split; [|split]].
    + intros i Hi. rewrite Hkeep by (by apply elem_of_union_r).
      apply list_lookup_insert_ne. intros ->. done.
    + intros i b0 b' Hb0 Hb'. destruct (decide (i = r)) as [->|Hir].
      * right. congruence.
      * apply (Hcount i); [|done]. by rewrite list_lookup_insert_ne.
    + intros Hno. apply Forall_cons in Hno as [_ Hno]. by apply Hret.
    + intros H5 Hm. apply Forall_cons in H5 as [_ H5].
      destruct (Hall H5 Hm) as [-> Hmore]. split; [done|].
      intros i b0 b' Hi Hb0 Hb'. destruct (decide (i = r)) as [->|Hir].
      * congruence.
      * apply (Hmore i); [| by rewrite list_lookup_insert_ne | done].
        intros [Hi'|Hi']%elem_of_union; [|done].
        by apply elem_of_singleton in Hi'.
  - (* return the response *)
    exists (Returned resp), (<[r := b1]> tracked).
    split; [done|]. split; [apply length_insert|].
    split; [|split; [|split]].
    + intros i Hi. apply list_lookup_insert_ne. intros ->. done.
    + intros i b0 b' Hb0 Hb'. destruct (decide (i = r)) as [->|Hir].
      * rewrite list_lookup_insert_eq in Hb' by done. right. congruence.
      * rewrite list_lookup_insert_ne in Hb' by done. left. congruence.
    + by eexists.
    + intros H5 Hm. exfalso.
      apply Forall_cons in H5 as [(resp' & latency' & Hs & H5xx) _].
      assert (resp' = resp) as -> by congruence.
      rewrite H5xx in Hretry. cbn in Hretry. unfold canRetry in Hretry.
      assert ((Response.status resp <? 500)%Z = false) as Hlow.
      { unfold is5xx in H5xx. apply andb_true_iff in H5xx as [H500 _].
        apply Z.leb_le in H500. apply Z.ltb_ge. done. }
      rewrite Hlow in Hretry.
      destruct Hm as [Hm|Hm]; rewrite Hm in Hretry; done.
Qed.
End DispatchFacts.

Lemma size_no_attempts (tracked : list Backend.t) :
  tracked ≠ [] → size (∅ : gset nat) < length tracked.
Proof. intros H. rewrite size_empty. destruct tracked; [done | cbn; lia]. Qed.

(** A call on a pool whose transports never throw returns a response. *)
Lemma fetchBalancer_returns D A H L I env tracked req :
  length tracked ≤ length env → Forall (λ o, reply o ≠ Throws) env →
  ∃ resp tracked',
    fetchBalancer D A H L I env tracked req = Some (Returned resp, tracked').
Proof.
  intros Hfuel Hno.
  destruct (dispatch_spec D A H L I env (toRequest req) tracked ∅)
    as (res & tracked' & Hrun & _ & _ & _ & Hret & _).
  { intros i Hi. by apply not_elem_of_empty in Hi. }
  { rewrite size_empty. lia. }
  destruct (Hret Hno) as [resp ->]. by exists resp, tracked'.
Qed.

(** On a pool of one record a call is one attempt on that record. *)
Lemma fetchBalancer_single D A H L I o b req :
  reply o ≠ Throws →
  ∃ resp, fetchBalancer D A H L I [o] [b] req
          = Some (Returned resp, [attemptObs D A H L I b o]).
Proof.
  intros Hno. unfold fetchBalancer.
  destruct (dispatch_turn D A H L I o [] (toRequest req) [b] ∅) as
    (r & b' & Hr & _ & Hb & ->); [by rewrite size_empty; cbn; lia|].
  cbn [length] in Hr. assert (r = 0) as -> by lia. injection Hb as <-.
  unfold attemptObs.
  destruct (settle o) as [[resp latency]|] eqn:Ho;
    [|unfold settle in Ho; by destruct (reply o)].
  cbn [insert list_insert].
  destruct (is5xx (Response.status resp) && canRetry (toRequest req) resp).
  - exists proxyError. rewrite dispatch_done; [done|].
    rewrite union_empty_r_L, size_singleton. cbn. lia.
  - by exists resp.
Qed.

(** C5, at the input where the code departs from it: the transport is
    called on line 76, outside the [try] block that guards the [await].
    When that call throws instead of returning a rejected promise, the
    exception leaves [fetchBalancer] and no response is produced; the pool
    is as it was. *)
Theorem fetchBalancer_raises_when_transport_call_throws :
  reply throwing = Throws
  ∧ sampleFetch [throwing] (balancer [0]) (GET "/")
    = Some (Raised, balancer [0]).
Proof. split; [reflexivity | by vm_compute]. Qed.

(** The method test is an exact string comparison. *)
Example canRetry_is_case_sensitive :
  canRetry (Request.mk "GET") proxyError = true
  ∧ canRetry (Request.mk "HEAD") proxyError = true
  ∧ canRetry (Request.mk "get") proxyError = false
  ∧ canRetry (Request.mk "POST") proxyError = false
  ∧ canRetry (Request.mk "GET") (Response.mk 404 "not found") = false.
Proof. repeat split. Qed.

(** C6: when the pool is not empty and the first transport answers (or
    rejects), a request whose method is neither GET nor HEAD, or an answer
    with a status below 500, makes [fetchBalancer] return that first
    response at once, and the request counts of the pool add up to
    exactly one more than before. *)
Theorem no_retry_unless_get_or_head_and_5xx
    D A H L I o env tracked req resp latency :
  tracked ≠ [] →
  settle o = Some (resp, latency) →
  (Request.method (toRequest req) ≠ "GET"%string
   ∧ Request.method (toRequest req) ≠ "HEAD"%string)
  ∨ (Response.status resp < 500)%Z →
  ∃ tracked',
    fetchBalancer D A H L I (o :: env) tracked req
      = Some (Returned resp, tracked')
    ∧ totalRequests tracked' = S (totalRequests tracked).
Proof.
  intros Hpool Ho Hcase. unfold fetchBalancer.
  destruct (dispatch_turn D A H L I o env (toRequest req) tracked ∅
              (size_no_attempts tracked Hpool))
    as (r & b & Hr & _ & Hb & ->).
  rewrite Ho.
  assert (is5xx (Response.status resp) && canRetry (toRequest req) resp = false)
    as ->.
  { unfold canRetry, is5xx. destruct Hcase as [[Hget Hhead]|Hlow].
    - apply String.eqb_neq in Hget, Hhead. rewrite Hget, Hhead.
      destruct (Response.status resp <? 500)%Z; by rewrite andb_false_r.
    - assert ((500 <=? Response.status resp)%Z = false) as ->
        by (apply Z.leb_gt; lia).
      done. }
  eexists. split; [done|]. unfold totalRequests.
  pose proof (sum_list_insert Backend.requestCount tracked r b
                (attempt D A H L I o resp latency b) Hb) as Hsum.
  rewrite attempt_requestCount in Hsum. lia.
Qed.

Lemma no_retry_unless_get_or_head_and_5xx_witness :
  balancer [0; 1] ≠ []
  ∧ settle (answer 503 "busy" 5 clock0)
    = Some (Response.mk 503 "busy", 5%Z)
  ∧ ∃ tracked',
      sampleFetch [answer 503 "busy" 5 clock0] (balancer [0; 1]) POST
        = Some (Returned (Response.mk 503 "busy"), tracked')
      ∧ totalRequests tracked' = S (totalRequests (balancer [0; 1])).
Proof.
  assert (balancer [0; 1] ≠ []) as H1 by discriminate.
  assert (settle (answer 503 "busy" 5 clock0)
          = Some (Response.mk 503 "busy", 5%Z)) as H2 by reflexivity.
  split; [exact H1 | split; [exact H2 |]].
  apply (no_retry_unless_get_or_head_and_5xx 50 100 (1 # 2) (1 # 2) (1 # 5)
           (answer 503 "busy" 5 clock0) [] (balancer [0; 1]) POST
           (Response.mk 503 "busy") 5%Z H1 H2).
  left. split; discriminate.
Defined.

Lemma totalRequests_bound (tracked tracked' : list Backend.t) :
  length tracked' = length tracked →
  (∀ i b b', tracked !! i = Some b → tracked' !! i = Some b' →
     Backend.requestCount b' ≤ S (Backend.requestCount b)) →
  totalRequests tracked' ≤ totalRequests tracked + length tracked.
Proof.
  revert tracked'. unfold totalRequests.
  induction tracked as [|b tracked IH]; intros [|b' tracked'] Hlen Hall;
    try done.
  injection Hlen as Hlen.
  pose proof (Hall 0 b b' eq_refl eq_refl).
  specialize (IH tracked' Hlen (λ i, Hall (S i))).
  simpl. unfold fmap in IH. lia.
Qed.

(** C9, as amended: given one observation per record of the pool the loop
    ends, having added at most one request to each record and so at most
    as many requests as the pool has records; when every observation is a
    5xx answer and the method is GET or HEAD, every record is attempted
    exactly once and the result is the generic 502 response
    [proxyError]. *)
Theorem dispatch_loop_bounded_by_pool D A H L I env tracked req :
  length tracked ≤ length env →
  ∃ res tracked',
    fetchBalancer D A H L I env tracked req = Some (res, tracked')
    ∧ length tracked' = length tracked
    ∧ (∀ i b b', tracked !! i = Some b → tracked' !! i = Some b' →
         Backend.requestCount b' = Backend.requestCount b
         ∨ Backend.requestCount b' = S (Backend.requestCount b))
    ∧ totalRequests tracked' ≤ totalRequests tracked + length tracked
    ∧ (Forall fails env →
       Request.method (toRequest req) = "GET"%string
       ∨ Request.method (toRequest req) = "HEAD"%string →
       res = Returned proxyError
       ∧ ∀ i b b', tracked !! i = Some b → tracked' !! i = Some b' →
           Backend.requestCount b' = S (Backend.requestCount b)).
Proof.
  intros Hfuel.
  destruct (dispatch_spec D A H L I env (toRequest req) tracked ∅)
    as (res & tracked' & Hrun & Hlen & _ & Hcount & _ & Hall).
  { intros i Hi. by apply not_elem_of_empty in Hi. }
  { rewrite size_empty. lia. }
  exists res, tracked'. split; [done|]. split; [done|]. split; [done|].
  split.
  { apply totalRequests_bound; [done|]. intros i b b' Hb Hb'.
    destruct (Hcount i b b' Hb Hb'); lia. }
  intros H5 Hm. destruct (Hall H5 Hm) as [-> Hmore]. split; [done|].
  intros i b b'. apply Hmore, not_elem_of_empty.
Qed.

Lemma dispatch_loop_bounded_by_pool_witness :
  length (balancer [0; 1]) ≤ length [answer 500 "a" 5 clock0; answer 503 "b" 5 clock0]
  ∧ ∃ tracked',
      sampleFetch [answer 500 "a" 5 clock0; answer 503 "b" 5 clock0]
        (balancer [0; 1]) (GET "/")
      = Some (Returned proxyError, tracked')
      ∧ length tracked' = 2.
Proof.
  assert (length (balancer [0; 1])
          ≤ length [answer 500 "a" 5 clock0; answer 503 "b" 5 clock0]) as H1
    by (cbn; lia).
  split; [exact H1|].
  destruct (dispatch_loop_bounded_by_pool 50 100 (1 # 2) (1 # 2) (1 # 5)
              [answer 500 "a" 5 clock0; answer 503 "b" 5 clock0]
              (balancer [0; 1]) (GET "/") H1)
    as (res & tracked' & Hrun & Hlen & _ & _ & Hall).
  exists tracked'. destruct Hall as [-> _].
  - repeat constructor; eexists _, _; split; reflexivity.
  - by left.
  - split; [exact Hrun | exact Hlen].
Defined.

(** C9 as stated fails for a request that may not be retried: a POST to
    a pool of one transport that answers 503 leaves every record
    attempted and no answer other than a 5xx, yet the result is that 503
    answer, not the generic 502 response. *)
Lemma exhausted_pool_returns_backend_answer :
  ∃ b, sampleFetch [answer 503 "busy" 5 clock0] (balancer [0]) POST
       = Some (Returned (Response.mk 503 "busy"), [b])
    ∧ Backend.requestCount b = 1
    ∧ fails (answer 503 "busy" 5 clock0)
    ∧ Returned (Response.mk 503 "busy") ≠ Returned proxyError.
Proof.
  eexists. split; [by vm_compute|]. split; [reflexivity|].
  split; [eexists _, _; split; reflexivity | discriminate].
Qed.

(** * Further properties of the code *)

(** ** The scorer: what it changes and what it leaves *)

Lemma Sorted_merge_sort_Z (l : list Z) : Sorted Z.le (merge_sort Z.le l).
Proof. apply (Sorted_merge_sort Z.le). Qed.

Lemma merge_sort_sorted (l : list Z) : Sorted Z.le l → merge_sort Z.le l = l.
Proof.
  intros Hl. apply (Sorted_unique Z.le); [apply Sorted_merge_sort_Z | done |].
  apply merge_sort_Permutation.
Qed.

Lemma js_sort_idempotent (a : JsArray) : js_sort (js_sort a) = js_sort a.
Proof.
  unfold js_sort at 1. rewrite present_js_sort, length_js_sort.
  rewrite merge_sort_sorted by apply Sorted_merge_sort_Z.
  unfold js_sort. do 2 f_equal.
  by rewrite (Permutation_length (merge_sort_Permutation Z.le (present a))).
Qed.

(** X1: whatever the record and the reference time, [score] leaves the
    transport, the request count, the statuses, the last error and the
    reserved counter alone and keeps the latencies as a collection (same
    length, same entries up to order); when it scores, the latencies come
    out in ascending order with the holes last. *)
Theorem score_keeps_all_but_order D A H L I dateNow b errorBasis :
  let b' := snd (score D A H L I dateNow b errorBasis) in
  Backend.proxy b' = Backend.proxy b
  ∧ Backend.requestCount b' = Backend.requestCount b
  ∧ Backend.statuses b' = Backend.statuses b
  ∧ Backend.lastError b' = Backend.lastError b
  ∧ Backend.errorCount b' = Backend.errorCount b
  ∧ length (Backend.latencies b') = length (Backend.latencies b)
  ∧ present (Backend.latencies b') ≡ₚ present (Backend.latencies b)
  ∧ (measuresTaken (Backend.latencies b) < 2 → b' = b)
  ∧ (2 ≤ measuresTaken (Backend.latencies b) →
     Sorted Z.le (present (Backend.latencies b'))
     ∧ Backend.latencies b'
       = (Some <$> present (Backend.latencies b'))
         ++ replicate (length (Backend.latencies b)
                       - length (present (Backend.latencies b))) None
     ∧ Backend.scoredRequestCount b' = Backend.requestCount b).
Proof.
  intros b'. subst b'.
  destruct (decide (measuresTaken (Backend.latencies b) < 2)) as [Hm|Hm].
  - rewrite score_few by done. cbn [snd].
    do 8 (split; [done|]). intros Hm'. lia.
  - rewrite score_enough by lia.
    cbn [snd Backend.proxy Backend.requestCount Backend.statuses
         Backend.lastError Backend.errorCount Backend.latencies
         Backend.scoredRequestCount].
    rewrite length_js_sort, present_js_sort.
    do 6 (split; [done|]).
    split; [apply merge_sort_Permutation|].
    split; [intros Hm'; lia|]. intros _.
    split; [apply Sorted_merge_sort_Z|]. split; [|done].
    unfold js_sort. do 2 f_equal.
Qed.

(** X2: scoring is idempotent at a fixed reference time: scoring the
    record that [score] leaves returns the same triple and leaves the same
    record. *)
Theorem score_idempotent D A H L I dateNow b errorBasis :
  score D A H L I dateNow (snd (score D A H L I dateNow b errorBasis)) errorBasis
  = score D A H L I dateNow b errorBasis.
Proof.
  destruct (decide (measuresTaken (Backend.latencies b) < 2)) as [Hm|Hm].
  - rewrite (score_few D A H L I dateNow b) by done. cbn [snd].
    by rewrite score_few.
  - rewrite (score_enough D A H L I dateNow b) by lia. cbn [snd].
    rewrite score_enough
      by (cbn [Backend.latencies]; rewrite measuresTaken_js_sort; lia).
    cbn [Backend.latencies Backend.statuses Backend.lastError Backend.proxy
         Backend.requestCount Backend.errorCount].
    rewrite js_sort_idempotent, measuresTaken_js_sort.
    unfold healthScoreOf. by rewrite measuresTaken_js_sort.
Qed.

(** X3: once the last error is 10 s old or older, a record with at least
    two samples is scored (1, 1, health weight + latency weight) whatever
    its statuses and latencies, and these values are stored. *)
Theorem old_errors_do_not_count D A H L I dateNow b errorBasis :
  2 ≤ measuresTaken (Backend.latencies b) →
  (10000 <= default dateNow errorBasis - Backend.lastError b)%Z →
  let r := score D A H L I dateNow b errorBasis in
  fst r = (1, 1, 1 * H + 1 * L)%Q
  ∧ Backend.healthScore (snd r) = 1%Q
  ∧ Backend.latencyScore (snd r) = 1%Q
  ∧ Backend.score (snd r) = (1 * H + 1 * L)%Q.
Proof.
  intros Hm Hold r. subst r. rewrite score_enough by done.
  rewrite timeWeight_expired by done.
  assert (∀ x, toFixed2 (1 - 0 * x) = 1%Q) as Hone.
  { intros x. transitivity (toFixed2 1); [apply toFixed2_Qeq; ring | reflexivity]. }
  unfold healthScoreOf, latencyScoreOf. rewrite !Hone. by cbn.
Qed.

Lemma old_errors_do_not_count_witness :
  2 ≤ measuresTaken (Backend.latencies unhealthy)
  ∧ (10000 <= default clock0 None - Backend.lastError unhealthy)%Z
  ∧ fst (sampleScore clock0 unhealthy None) = (1, 1, 1 * (1 # 2) + 1 * (1 # 2))%Q.
Proof.
  assert (2 ≤ measuresTaken (Backend.latencies unhealthy)) as H1
    by (vm_compute; lia).
  assert ((10000 <= default clock0 None - Backend.lastError unhealthy)%Z) as H2
    by (vm_compute; discriminate).
  split; [exact H1 | split; [exact H2 |]].
  exact (proj1 (old_errors_do_not_count 50 100 (1 # 2) (1 # 2) (1 # 5)
                  clock0 unhealthy None H1 H2)).
Defined.

(** ** The smoothed latency *)

Section Smoothing.
Variable LATENCY_DEVIATION_ALLOWED : Q.

Local Abbreviation smooth' := (smooth LATENCY_DEVIATION_ALLOWED).

Lemma smooth_foldl_range (lo hi : Q) (l : list Z) (acc : Q) (n : nat) :
  (lo <= acc <= hi)%Q →
  Forall (λ x, (lo <= inject_Z x <= hi)%Q) l →
  (lo <= fst (foldl smooth' (acc, n) l) <= hi)%Q
  ∧ snd (foldl smooth' (acc, n) l) ≤ n + length l.
Proof.
  revert acc n. induction l as [|x l IH]; intros acc n Hacc Hl; cbn [foldl].
  - cbn [fst snd length]. split; [exact Hacc | lia].
  - apply Forall_cons in Hl as [Hx Hl].
    assert (smooth' (acc, n) x = ((acc + inject_Z x) / 2, n)%Q
            ∨ smooth' (acc, n) x = (acc, S n)) as [-> | ->].
    { unfold smooth. destruct (Qlt_bool _ _); auto. }
    + destruct (IH ((acc + inject_Z x) / 2)%Q n) as [Hr Hc]; [|done|].
      { split.
        - apply Qle_shift_div_l; [reflexivity | lra].
        - apply Qle_shift_div_r; [reflexivity | lra]. }
      split; [exact Hr | cbn [length]; lia].
    + destruct (IH acc (S n) Hacc Hl) as [Hr Hc].
      split; [exact Hr | cbn [length]; lia].
Qed.

Lemma present_js_sort_Permutation (a : JsArray) :
  present (js_sort a) ≡ₚ present a.
Proof. rewrite present_js_sort. apply merge_sort_Permutation. Qed.

Lemma inject_Z_range (lo hi x : Z) :
  (lo <= x <= hi)%Z → (inject_Z lo <= inject_Z x <= inject_Z hi)%Q.
Proof. intros [H1 H2]. split; by rewrite <- Zle_Qle. Qed.

Lemma middleLatency_range (lo hi : Z) (a : JsArray) :
  0 < measuresTaken a →
  Forall (λ x, (lo <= x <= hi)%Z) (present a) →
  (inject_Z lo <= middleLatency (js_sort a) (measuresTaken a) <= inject_Z hi)%Q.
Proof.
  intros Hm Hall. destruct (middleLatency_present a Hm) as [l Hl].
  unfold middleLatency. rewrite Hl. apply inject_Z_range.
  assert (l ∈ present (js_sort a)) as Hin.
  { unfold present. apply list_elem_of_omap. exists (Some l).
    split; [by eapply list_elem_of_lookup_2 | done]. }
  rewrite present_js_sort_Permutation in Hin.
  by apply (proj1 (Forall_forall _ _) Hall).
Qed.
End Smoothing.

Lemma smooth_foldl_count D (l : list Z) (acc : Q) (n : nat) :
  snd (foldl (smooth D) (acc, n) l) ≤ n + length l.
Proof.
  revert acc n. induction l as [|x l IH]; intros acc n; cbn [foldl length].
  - cbn. lia.
  - assert (smooth D (acc, n) x = ((acc + inject_Z x) / 2, n)%Q
            ∨ smooth D (acc, n) x = (acc, S n)) as [-> | ->].
    { unfold smooth. destruct (Qlt_bool _ _); auto. }
    + specialize (IH ((acc + inject_Z x) / 2)%Q n). lia.
    + specialize (IH acc (S n)). lia.
Qed.

Lemma beyond_le_present D (a : JsArray) (m : nat) :
  beyondAllowedLatencyDeviation D (js_sort a) m ≤ length (present a).
Proof.
  unfold beyondAllowedLatencyDeviation, smoothed.
  pose proof (smooth_foldl_count D (present (js_sort a))
                (middleLatency (js_sort a) m) 0) as Hc.
  by rewrite (Permutation_length (present_js_sort_Permutation a)) in Hc.
Qed.

(** X4: the smoothed average latency stays within the range of the
    recorded latencies, and the counted deviations never exceed the number
    of recorded latencies. *)
Theorem averageLatency_within_samples D (lo hi : Z) (a : JsArray) :
  0 < measuresTaken a →
  Forall (λ x, (lo <= x <= hi)%Z) (present a) →
  (inject_Z lo <= averageLatency D (js_sort a) (measuresTaken a) <= inject_Z hi)%Q
  ∧ beyondAllowedLatencyDeviation D (js_sort a) (measuresTaken a)
    ≤ length (present a).
Proof.
  intros Hm Hall. unfold averageLatency, beyondAllowedLatencyDeviation, smoothed.
  destruct (smooth_foldl_range D (inject_Z lo) (inject_Z hi)
              (present (js_sort a)) (middleLatency (js_sort a) (measuresTaken a)) 0)
    as [Hr Hc].
  - by apply middleLatency_range.
  - rewrite present_js_sort_Permutation.
    eapply Forall_impl; [exact Hall|]. intros x Hx. by apply inject_Z_range.
  - split; [done|]. apply beyond_le_present.
Qed.

Lemma averageLatency_within_samples_witness :
  0 < measuresTaken (Backend.latencies unhealthy)
  ∧ Forall (λ x, (100 <= x <= 200)%Z) (present (Backend.latencies unhealthy))
  ∧ (inject_Z 100
     <= averageLatency 50 (js_sort (Backend.latencies unhealthy))
          (measuresTaken (Backend.latencies unhealthy))
     <= inject_Z 200)%Q.
Proof.
  assert (0 < measuresTaken (Backend.latencies unhealthy)) as H1
    by (vm_compute; lia).
  assert (Forall (λ x, (100 <= x <= 200)%Z)
            (present (Backend.latencies unhealthy))) as H2
    by (repeat constructor; discriminate).
  split; [exact H1 | split; [exact H2 |]].
  exact (proj1 (averageLatency_within_samples 50 100 200
                  (Backend.latencies unhealthy) H1 H2)).
Defined.

Lemma measuresTaken_all_nonzero (a : JsArray) :
  Forall (λ x, x ≠ 0%Z) (present a) → measuresTaken a = length (present a).
Proof.
  intros Hall. unfold measuresTaken. f_equal.
  induction (present a) as [|x l IH]; [done|].
  apply Forall_cons in Hall as [Hx Hall]. rewrite filter_cons_True by done.
  by rewrite IH.
Qed.

(** X5: for a record none of whose recorded latencies is 0, with a
    positive expected latency and an instability weight in [0,1], the
    latency score that [score] returns lies in [0,1]. *)
Theorem latencyScore_in_unit_interval_without_zero_samples
    D A H L I dateNow b errorBasis :
  (0 < A)%Q → (0 <= I <= 1)%Q →
  Forall (λ x, x ≠ 0%Z) (present (Backend.latencies b)) →
  (0 <= returnedLatency (score D A H L I dateNow b errorBasis) <= 1)%Q.
Proof.
  intros HA HI Hnz.
  destruct (decide (measuresTaken (Backend.latencies b) < 2)) as [Hm|Hm].
  - rewrite score_few by done. split; by vm_compute.
  - rewrite score_enough by lia. cbn [returnedLatency fst snd].
    pose proof (timeWeight_range (Backend.lastError b)
      (default dateNow errorBasis - Backend.lastError b)) as Hw.
    split.
    + apply latencyScoreOf_ge_0; try done; lia.
    + apply latencyScoreOf_le_1; try done; [lia|].
      unfold correctedLatencyDeviationCount. destruct (decide _); [|lia].
      rewrite (measuresTaken_all_nonzero _ Hnz) at 2.
      apply beyond_le_present.
Qed.

Lemma latencyScore_in_unit_interval_without_zero_samples_witness :
  (0 < 100)%Q ∧ (0 <= 1 # 5 <= 1)%Q
  ∧ Forall (λ x, x ≠ 0%Z) (present (Backend.latencies unhealthy))
  ∧ (0 <= returnedLatency (sampleScore 0 unhealthy (Some 0%Z)) <= 1)%Q.
Proof.
  assert ((0 < 100)%Q) as HA by reflexivity.
  assert ((0 <= 1 # 5 <= 1)%Q) as HI by (split; discriminate).
  assert (Forall (λ x, x ≠ 0%Z) (present (Backend.latencies unhealthy))) as Hnz
    by (repeat constructor; discriminate).
  split; [exact HA | split; [exact HI | split; [exact Hnz |]]].
  exact (latencyScore_in_unit_interval_without_zero_samples
           50 100 (1 # 2) (1 # 2) (1 # 5) 0 unhealthy (Some 0%Z) HA HI Hnz).
Defined.

(** ** More on the selector *)

Lemma beats_trans (x y z : Backend.t) :
  beats x y = true → beats y z = true → beats x z = true.
Proof.
  rewrite !beats_true. intros H1 H2.
  repeat match goal with
         | H : _ ∨ _ |- _ => destruct H
         | H : _ ∧ _ |- _ => destruct H
         end;
  first [left; lra | right; split; [lra | lia]].
Qed.

(** X6: [bestBackend] returns one of its two arguments, the one the other
    does not beat (the second on a tie); to beat is a strict order:
    no record beats itself and beating is transitive. *)
Theorem bestBackend_picks_unbeaten store a b :
  (bestBackend store a b = a ∨ bestBackend store a b = b)
  ∧ beats (deref store a) (deref store (bestBackend store a b)) = false
  ∧ beats (deref store b) (deref store (bestBackend store a b)) = false
  ∧ (beats (deref store a) (deref store b) = false → bestBackend store a b = b)
  ∧ (∀ x, beats x x = false)
  ∧ (∀ x y z, beats x y = true → beats y z = true → beats x z = true).
Proof.
  unfold bestBackend.
  destruct (beats (deref store a) (deref store b)) eqn:Hab.
  - split; [by left|]. split; [apply beats_irrefl|].
    split; [by apply beats_asym|]. split; [done|].
    split; [apply beats_irrefl | apply beats_trans].
  - split; [by right|]. split; [done|]. split; [apply beats_irrefl|].
    split; [done|]. split; [apply beats_irrefl | apply beats_trans].
Qed.

Lemma chooseStep_same_keys store1 store2 attempted st b :
  (∀ r, rankKey (deref store1 r) = rankKey (deref store2 r)) →
  chooseStep store1 attempted st b = chooseStep store2 attempted st b.
Proof.
  intros Hkeys.
  assert (∀ x y, beats (deref store1 x) (deref store1 y)
                 = beats (deref store2 x) (deref store2 y)) as Hbeats.
  { intros x y. unfold beats.
    pose proof (Hkeys x) as Hx. pose proof (Hkeys y) as Hy.
    unfold rankKey in Hx, Hy. injection Hx as Hx1 Hx2. injection Hy as Hy1 Hy2.
    by rewrite Hx1, Hx2, Hy1, Hy2. }
  assert (∀ x y, bestBackend store1 x y = bestBackend store2 x y) as Hbest.
  { intros x y. unfold bestBackend. by rewrite Hbeats. }
  unfold chooseStep. destruct (was_attempted attempted b); [done|].
  destruct st as [[old1|] [b2|]]; try done. by rewrite !Hbest.
Qed.

(** X7: the selection reads nothing of a record but its score and its
    request count: on two pools whose records agree on these two fields,
    whatever their health scores, latency scores, buffers and last errors,
    [chooseBackends] returns the same pair. *)
Theorem chooseBackends_reads_score_and_requestCount
    store1 store2 backends attempted :
  (∀ r, rankKey (deref store1 r) = rankKey (deref store2 r)) →
  chooseBackends store1 backends attempted
  = chooseBackends store2 backends attempted.
Proof.
  intros Hkeys. unfold chooseBackends. generalize (@None nat, @None nat).
  induction backends as [|b backends IH]; intros st; [done|].
  cbn [foldl]. by rewrite (chooseStep_same_keys store1 store2), IH.
Qed.

Lemma chooseBackends_reads_score_and_requestCount_witness :
  (∀ r, rankKey (deref [healthy; unhealthy] r)
        = rankKey (deref [Backend.with_scores 0 (1 # 10) (1 # 10) 1 healthy;
                          unhealthy] r))
  ∧ chooseBackends [healthy; unhealthy] [0; 1] None
    = chooseBackends [Backend.with_scores 0 (1 # 10) (1 # 10) 1 healthy;
                      unhealthy] [0; 1] None.
Proof.
  assert (∀ r, rankKey (deref [healthy; unhealthy] r)
               = rankKey (deref [Backend.with_scores 0 (1 # 10) (1 # 10) 1 healthy;
                                 unhealthy] r)) as H1
    by (intros [|[|r]]; reflexivity).
  split; [exact H1|].
  exact (chooseBackends_reads_score_and_requestCount _ _ [0; 1] None H1).
Defined.

Lemma foldl_chooseStep_settled store (x y : nat) (rest : list nat) :
  Forall (λ z, beats (deref store z) (deref store x) = false
               ∧ beats (deref store z) (deref store y) = false) rest →
  foldl (chooseStep store None) (Some x, Some y) rest = (Some x, Some y).
Proof.
  induction rest as [|z rest IH]; intros Hall; [done|].
  apply Forall_cons in Hall as [[Hzx Hzy] Hall]. cbn [foldl].
  assert (chooseStep store None (Some x, Some y) z = (Some x, Some y)) as ->.
  { cbn [chooseStep was_attempted]. unfold bestBackend. rewrite Hzx, Hzy.
    by rewrite decide_False by (intros Hne; by apply Hne). }
  by apply IH.
Qed.

(** X8: when no untried record beats another one, as in a pool just
    built, the selector returns the first two untried records in pool
    order. *)
Theorem chooseBackends_keeps_pool_order_on_ties store backends attempted :
  (∀ x y, x ∈ untried attempted backends → y ∈ untried attempted backends →
     beats (deref store x) (deref store y) = false) →
  chooseBackends store backends attempted
  = (untried attempted backends !! 0, untried attempted backends !! 1).
Proof.
  intros Hties. unfold chooseBackends. rewrite chooseBackends_untried.
  destruct (untried attempted backends) as [|x [|y rest]]; [done..|].
  cbn [foldl chooseStep was_attempted lookup list_lookup].
  apply foldl_chooseStep_settled. apply Forall_forall. intros z Hz.
  split; apply Hties; repeat constructor; done.
Qed.

Lemma chooseBackends_keeps_pool_order_on_ties_witness :
  (∀ x y, x ∈ untried (Some {[1]}) [0; 1; 2; 3] →
          y ∈ untried (Some {[1]}) [0; 1; 2; 3] →
          beats (deref (balancer [7; 8; 9; 10]) x)
                (deref (balancer [7; 8; 9; 10]) y) = false)
  ∧ chooseBackends (balancer [7; 8; 9; 10]) [0; 1; 2; 3] (Some {[1]})
    = (Some 0, Some 2).
Proof.
  assert (∀ x y, x ∈ untried (Some {[1]}) [0; 1; 2; 3] →
                 y ∈ untried (Some {[1]}) [0; 1; 2; 3] →
                 beats (deref (balancer [7; 8; 9; 10]) x)
                       (deref (balancer [7; 8; 9; 10]) y) = false) as H1.
  { intros x y _ _. by destruct x as [|[|[|[|x]]]], y as [|[|[|[|y]]]]. }
  split; [exact H1|].
  exact (chooseBackends_keeps_pool_order_on_ties
           (balancer [7; 8; 9; 10]) [0; 1; 2; 3] (Some {[1]}) H1).
Defined.

(** X9: the second result is present only with the first, and on a list
    of distinct records the two results are distinct records. *)
Theorem chooseBackends_returns_distinct_records store backends attempted :
  NoDup backends →
  ((chooseBackends store backends attempted).1 = None →
   (chooseBackends store backends attempted).2 = None)
  ∧ ∀ r1 r2, chooseBackends store backends attempted = (Some r1, Some r2) →
      r1 ≠ r2.
Proof.
  intros Hnd.
  pose proof (chooseBackends_TwoBest store backends attempted) as Hst.
  assert (NoDup (untried attempted backends)) as Hnd'
    by (by apply NoDup_filter).
  destruct (chooseBackends store backends attempted) as [o1 o2].
  inversion Hst as [Hl|r Hl|i j r1 r2 Hij Hi Hj Hrest]; subst; cbn [fst snd].
  - split; [done|]. by intros.
  - split; [done|]. by intros.
  - split; [done|]. intros r1' r2' [= <- <-] ->.
    apply Hij. by eapply NoDup_lookup.
Qed.

Lemma chooseBackends_returns_distinct_records_witness :
  NoDup (seq 0 5)
  ∧ ∀ r1 r2, chooseBackends testPool (seq 0 5) None = (Some r1, Some r2) →
      r1 ≠ r2.
Proof.
  assert (NoDup (seq 0 5)) as H1 by apply NoDup_seq.
  split; [exact H1|].
  exact (proj2 (chooseBackends_returns_distinct_records testPool (seq 0 5) None H1)).
Defined.

(** ** More on the dispatch loop *)

Section DispatchMore.
Variables LATENCY_DEVIATION_ALLOWED AVERAGE_LATENCY_EXPECTED : Q.
Variables HEALTH_SCORE_WEIGHT LATENCY_SCORE_WEIGHT : Q.
Variable LATENCY_SCORE_INSTABILITY_WEIGHT : Q.

Local Abbreviation attempt' :=
  (attempt LATENCY_DEVIATION_ALLOWED AVERAGE_LATENCY_EXPECTED
     HEALTH_SCORE_WEIGHT LATENCY_SCORE_WEIGHT LATENCY_SCORE_INSTABILITY_WEIGHT).
Local Abbreviation dispatch' :=
  (dispatch LATENCY_DEVIATION_ALLOWED AVERAGE_LATENCY_EXPECTED
     HEALTH_SCORE_WEIGHT LATENCY_SCORE_WEIGHT LATENCY_SCORE_INSTABILITY_WEIGHT).

Lemma dispatch_out_of_observations req tracked attempted :
  size attempted < length tracked → dispatch' [] req tracked attempted = None.
Proof. intros H. cbn [dispatch]. by rewrite decide_True. Qed.

(** Each record the loop leaves is the one it found or one attempt on
    it, made with an observation of this run. *)
Lemma dispatch_pointwise env req tracked attempted res tracked' :
  (∀ i, i ∈ attempted → i < length tracked) →
  dispatch' env req tracked attempted = Some (res, tracked') →
  length tracked' = length tracked
  ∧ ∀ i b b', tracked !! i = Some b → tracked' !! i = Some b' →
      b' = b
      ∨ ((i ∉ attempted)
         ∧ ∃ o resp latency, o ∈ env ∧ settle o = Some (resp, latency)
             ∧ b' = attempt' o resp latency b).
Proof.
  revert tracked attempted.
  induction env as [|o env IH]; intros tracked attempted Hvalid Hrun;
    (destruct (decide (size attempted < length tracked)) as [Hsize|Hdone];
     [|rewrite dispatch_done in Hrun by done; injection Hrun as <- <-;
       split; [done|]; intros i b b' Hb Hb'; left; congruence]).
  { by rewrite dispatch_out_of_observations in Hrun. }
  destruct (dispatch_turn LATENCY_DEVIATION_ALLOWED AVERAGE_LATENCY_EXPECTED
              HEALTH_SCORE_WEIGHT LATENCY_SCORE_WEIGHT
              LATENCY_SCORE_INSTABILITY_WEIGHT o env req tracked attempted Hsize)
    as (r & b & Hr & Hna & Hb & Hturn).
  rewrite Hturn in Hrun. clear Hturn.
  destruct (settle o) as [[resp latency]|] eqn:Ho.
  2:{ injection Hrun as <- <-. split; [done|].
      intros i b0 b' Hb0 Hb'. left. congruence. }
  set (b1 := attempt' o resp latency b) in *.
  destruct (is5xx (Response.status resp) && canRetry req resp).
  - destruct (IH (<[r := b1]> tracked) ({[r]} ∪ attempted)) as [Hlen Hpt];
      [|done|].
    { intros i Hi. rewrite length_insert.
      apply elem_of_union in Hi as [Hi|Hi]; [|by apply Hvalid].
      apply elem_of_singleton in Hi as ->. done. }
    rewrite length_insert in Hlen. split; [done|].
    intros i b0 b' Hb0 Hb'. destruct (decide (i = r)) as [->|Hir].
    + assert (b0 = b) as -> by congruence.
      destruct (Hpt r b1 b') as [->|[Hni _]]; [by apply list_lookup_insert_eq|done| |].
      * right. split; [done|]. exists o, resp, latency.
        split; [by left | done].
      * exfalso. apply Hni. by apply elem_of_union_l, elem_of_singleton.
    + destruct (Hpt i b0 b') as [->|[Hni (o' & resp' & latency' & Ho' & Hs & ->)]];
        [by rewrite list_lookup_insert_ne|done|by left|].
      right. split.
      * intros Hi. apply Hni. by apply elem_of_union_r.
      * exists o', resp', latency'. split; [by right | done].
  - injection Hrun as <- <-. split; [apply length_insert|].
    intros i b0 b' Hb0 Hb'. destruct (decide (i = r)) as [->|Hir].
    + rewrite list_lookup_insert_eq in Hb' by done. injection Hb' as <-.
      assert (b0 = b) as -> by congruence. right. split; [done|].
      exists o, resp, latency. split; [by left|]. by split.
    + rewrite list_lookup_insert_ne in Hb' by done. left. congruence.
Qed.

(** Where the outcome of the loop comes from. *)
Lemma dispatch_outcome env req tracked attempted res tracked' :
  dispatch' env req tracked attempted = Some (res, tracked') →
  match res with
  | Returned resp => resp = proxyError ∨ ∃ o, o ∈ env ∧ reply o = Resolves resp
  | Raised => ∃ o, o ∈ env ∧ reply o = Throws
  end.
Proof.
  revert tracked attempted.
  induction env as [|o env IH]; intros tracked attempted Hrun;
    (destruct (decide (size attempted < length tracked)) as [Hsize|Hdone];
     [|rewrite dispatch_done in Hrun by done; injection Hrun as <- <-;
       by left]).
  { by rewrite dispatch_out_of_observations in Hrun. }
  destruct (dispatch_turn LATENCY_DEVIATION_ALLOWED AVERAGE_LATENCY_EXPECTED
              HEALTH_SCORE_WEIGHT LATENCY_SCORE_WEIGHT
              LATENCY_SCORE_INSTABILITY_WEIGHT o env req tracked attempted Hsize)
    as (r & b & _ & _ & _ & Hturn).
  rewrite Hturn in Hrun. clear Hturn. unfold settle in Hrun.
  destruct (reply o) as [resp| |] eqn:Ho.
  - destruct (is5xx (Response.status resp) && canRetry req resp).
    + apply IH in Hrun. destruct res as [resp'|].
      * destruct Hrun as [->|(o' & Ho' & Hr')]; [by left|].
        right. exists o'. split; [by right | done].
      * destruct Hrun as (o' & Ho' & Hr'). exists o'. split; [by right | done].
    + injection Hrun as <- <-. right. exists o. split; [by left | done].
  - destruct (is5xx (Response.status proxyError) && canRetry req proxyError).
    + apply IH in Hrun. destruct res as [resp'|].
      * destruct Hrun as [->|(o' & Ho' & Hr')]; [by left|].
        right. exists o'. split; [by right | done].
      * destruct Hrun as (o' & Ho' & Hr'). exists o'. split; [by right | done].
    + injection Hrun as <- <-. by left.
  - injection Hrun as <- <-. exists o. split; [by left | done].
Qed.
End DispatchMore.

(** X10: a call leaves the pool at its size, and each record either as it
    was or as one attempt of this call on it leaves it; a record whose
    request count is as before is unchanged in every field. *)
Theorem fetchBalancer_touches_only_attempted D A H L I env tracked req res tracked' :
  fetchBalancer D A H L I env tracked req = Some (res, tracked') →
  length tracked' = length tracked
  ∧ ∀ i b b', tracked !! i = Some b → tracked' !! i = Some b' →
      (b' = b
       ∨ ∃ o resp latency, o ∈ env ∧ settle o = Some (resp, latency)
           ∧ b' = attempt D A H L I o resp latency b)
      ∧ (Backend.requestCount b' = Backend.requestCount b → b' = b).
Proof.
  intros Hrun. unfold fetchBalancer in Hrun.
  apply dispatch_pointwise in Hrun as [Hlen Hpt];
    [|intros i Hi; by apply not_elem_of_empty in Hi].
  split; [done|]. intros i b b' Hb Hb'.
  destruct (Hpt i b b' Hb Hb') as [->|[_ (o & resp & latency & Ho & Hs & ->)]].
  - split; [by left | done].
  - split; [right; by exists o, resp, latency|].
    rewrite attempt_requestCount. lia.
Qed.

Lemma fetchBalancer_touches_only_attempted_witness :
  ∃ b0 b1,
    sampleFetch [answer 200 "hi" 3 clock0] (balancer [0; 1]) (GET "/")
    = Some (Returned (Response.mk 200 "hi"), [b0; b1])
    ∧ b1 = newBackend 1.
Proof.
  assert (sampleFetch [answer 200 "hi" 3 clock0] (balancer [0; 1]) (GET "/")
          = Some (Returned (Response.mk 200 "hi"),
                  [attempt 50 100 (1 # 2) (1 # 2) (1 # 5)
                     (answer 200 "hi" 3 clock0) (Response.mk 200 "hi") 3
                     (newBackend 0);
                   newBackend 1])) as H1 by (by vm_compute).
  eexists _, _. split; [exact H1|].
  destruct (fetchBalancer_touches_only_attempted _ _ _ _ _ _ _ _ _ _ H1)
    as [_ Hpt].
  exact (eq_sym (proj2 (Hpt 1 (newBackend 1) (newBackend 1) eq_refl eq_refl)
                   eq_refl)).
Defined.

(** X11: a response the dispatcher returns is the generic [proxyError] or
    the very response a transport of this call resolved with (so the
    response of line 69 is never produced), and the call raises only when
    a transport call of this call threw. *)
Theorem fetchBalancer_outcome_provenance D A H L I env tracked req res tracked' :
  fetchBalancer D A H L I env tracked req = Some (res, tracked') →
  match res with
  | Returned resp => resp = proxyError ∨ ∃ o, o ∈ env ∧ reply o = Resolves resp
  | Raised => ∃ o, o ∈ env ∧ reply o = Throws
  end.
Proof.
  intros Hrun.
  exact (dispatch_outcome D A H L I env (toRequest req) tracked ∅ res tracked' Hrun).
Qed.

Lemma fetchBalancer_outcome_provenance_witness :
  sampleFetch [rejecting; answer 200 "hi" 3 clock0] (balancer [0; 1]) (GET "/")
  = Some (Returned (Response.mk 200 "hi"),
          [attempt 50 100 (1 # 2) (1 # 2) (1 # 5) rejecting proxyError 0
             (newBackend 0);
           attempt 50 100 (1 # 2) (1 # 2) (1 # 5) (answer 200 "hi" 3 clock0)
             (Response.mk 200 "hi") 3 (newBackend 1)])
  ∧ (Response.mk 200 "hi" = proxyError
     ∨ ∃ o, o ∈ [rejecting; answer 200 "hi" 3 clock0]
         ∧ reply o = Resolves (Response.mk 200 "hi")).
Proof.
  assert (sampleFetch [rejecting; answer 200 "hi" 3 clock0] (balancer [0; 1])
            (GET "/")
          = Some (Returned (Response.mk 200 "hi"),
                  [attempt 50 100 (1 # 2) (1 # 2) (1 # 5) rejecting proxyError 0
                     (newBackend 0);
                   attempt 50 100 (1 # 2) (1 # 2) (1 # 5)
                     (answer 200 "hi" 3 clock0) (Response.mk 200 "hi") 3
                     (newBackend 1)])) as H1 by (by vm_compute).
  split; [exact H1|].
  exact (fetchBalancer_outcome_provenance _ _ _ _ _ _ _ _ _ _ H1).
Defined.

(** ** Retrying until a transport answers *)

Lemma canRetry_5xx req resp :
  is5xx (Response.status resp) = true →
  Request.method req = "GET"%string ∨ Request.method req = "HEAD"%string →
  canRetry req resp = true.
Proof.
  intros H5 Hm. unfold canRetry.
  assert ((Response.status resp <? 500)%Z = false) as ->.
  { unfold is5xx in H5. apply andb_true_iff in H5 as [H500 _].
    apply Z.leb_le in H500. by apply Z.ltb_ge. }
  by destruct Hm as [-> | ->].
Qed.

Lemma totalRequests_attempt D A H L I tracked r b o resp latency :
  tracked !! r = Some b →
  totalRequests (<[r := attempt D A H L I o resp latency b]> tracked)
  = S (totalRequests tracked).
Proof.
  intros Hb. unfold totalRequests.
  pose proof (sum_list_insert Backend.requestCount tracked r b
                (attempt D A H L I o resp latency b) Hb) as Hsum.
  rewrite attempt_requestCount in Hsum. lia.
Qed.

Lemma dispatch_retries D A H L I pre o post req resp latency :
  Forall fails pre →
  Request.method req = "GET"%string ∨ Request.method req = "HEAD"%string →
  settle o = Some (resp, latency) →
  is5xx (Response.status resp) = false →
  ∀ tracked attempted,
    (∀ i, i ∈ attempted → i < length tracked) →
    size attempted + length pre < length tracked →
    ∃ tracked',
      dispatch D A H L I (pre ++ o :: post) req tracked attempted
      = Some (Returned resp, tracked')
      ∧ totalRequests tracked' = totalRequests tracked + S (length pre).
Proof.
  intros Hpre Hm Ho Hok.
  induction pre as [|p pre IH]; intros tracked attempted Hvalid Hsize.
  - cbn [app length] in *.
    destruct (dispatch_turn D A H L I o post req tracked attempted)
      as (r & b & Hr & Hna & Hb & ->); [lia|].
    rewrite Ho, Hok. cbn [andb]. eexists. split; [done|].
    rewrite (totalRequests_attempt _ _ _ _ _ _ _ b) by done. lia.
  - apply Forall_cons in Hpre as [(presp & platency & Hp & H5) Hpre].
    cbn [app length] in *.
    destruct (dispatch_turn D A H L I p (pre ++ o :: post) req tracked attempted)
      as (r & b & Hr & Hna & Hb & ->); [lia|].
    rewrite Hp, H5, (canRetry_5xx req presp H5 Hm). cbn [andb].
    destruct (IH Hpre (<[r := attempt D A H L I p presp platency b]> tracked)
                ({[r]} ∪ attempted)) as (tracked' & Hrun & Htotal).
    { intros i Hi. rewrite length_insert.
      apply elem_of_union in Hi as [Hi|Hi]; [|by apply Hvalid].
      apply elem_of_singleton in Hi as ->. done. }
    { rewrite length_insert, size_attempted_add by done. lia. }
    exists tracked'. split; [done|].
    rewrite Htotal, (totalRequests_attempt _ _ _ _ _ _ _ b) by done. lia.
Qed.

(** X12: for a GET or HEAD request, when the first k attempts are
    answered 5xx or rejected, k is below the pool size and the next
    attempt is answered with a status outside 500..599, the call returns
    that answer and the pool has served exactly k + 1 more requests. *)
Theorem fetchBalancer_retries_until_answer
    D A H L I pre o post tracked req resp latency :
  Forall fails pre →
  Request.method (toRequest req) = "GET"%string
  ∨ Request.method (toRequest req) = "HEAD"%string →
  length pre < length tracked →
  settle o = Some (resp, latency) →
  is5xx (Response.status resp) = false →
  ∃ tracked',
    fetchBalancer D A H L I (pre ++ o :: post) tracked req
    = Some (Returned resp, tracked')
    ∧ totalRequests tracked' = totalRequests tracked + S (length pre).
Proof.
  intros Hpre Hm Hlen Ho Hok. unfold fetchBalancer.
  apply (dispatch_retries D A H L I pre o post (toRequest req) resp latency
           Hpre Hm Ho Hok).
  - intros i Hi. by apply not_elem_of_empty in Hi.
  - rewrite size_empty. lia.
Qed.

Lemma fetchBalancer_retries_until_answer_witness :
  Forall fails [rejecting; answer 502 "nooooo" 1 clock0]
  ∧ length [rejecting; answer 502 "nooooo" 1 clock0] < length (balancer [0; 1; 2])
  ∧ ∃ tracked',
      sampleFetch ([rejecting; answer 502 "nooooo" 1 clock0]
                   ++ answer 200 "hi" 1 clock0 :: [])
        (balancer [0; 1; 2]) (GET "http://localhost/")
      = Some (Returned (Response.mk 200 "hi"), tracked')
      ∧ totalRequests tracked' = totalRequests (balancer [0; 1; 2]) + 3.
Proof.
  assert (Forall fails [rejecting; answer 502 "nooooo" 1 clock0]) as H1
    by (repeat constructor; eexists _, _; split; reflexivity).
  assert (length [rejecting; answer 502 "nooooo" 1 clock0]
          < length (balancer [0; 1; 2])) as H2 by (cbn; lia).
  split; [exact H1 | split; [exact H2 |]].
  exact (fetchBalancer_retries_until_answer 50 100 (1 # 2) (1 # 2) (1 # 5)
           [rejecting; answer 502 "nooooo" 1 clock0] (answer 200 "hi" 1 clock0) []
           (balancer [0; 1; 2]) (GET "http://localhost/")
           (Response.mk 200 "hi") 1%Z H1 (or_introl eq_refl) H2 eq_refl eq_refl).
Defined.

(** ** The last error *)

(** X13: an attempt writes [lastError] exactly when its answer has a
    status in 500..599, a rejected promise included, and then to the clock
    reading of line 102; any other answer leaves it as it was. *)
Theorem lastError_set_by_5xx_only D A H L I o resp latency b :
  Backend.lastError (attempt D A H L I o resp latency b)
  = if is5xx (Response.status resp) then t_error o else Backend.lastError b.
Proof.
  unfold attempt. set (b0 := prepare D A H L I o b).
  assert (Backend.lastError b0 = Backend.lastError b) as H0.
  { unfold b0, prepare. destruct (decide _); cbn [Backend.with_requestCount
      Backend.lastError]; [|done].
    by destruct (rescore_frame D A H L I (t_rescore o) b) as (_ & _ & _ & _ & ->). }
  set (b1 := record_observation _ _ b0).
  assert (Backend.lastError b1 = Backend.lastError b0) as H1.
  { unfold b1, record_observation. by destruct (decide _). }
  destruct (is5xx (Response.status resp)); [|congruence].
  unfold after_error.
  by destruct (rescore_frame D A H L I (t_score o)
                 (Backend.with_lastError (t_error o) b1)) as (_ & _ & _ & _ & ->).
Qed.

(** ** What the pool keeps across calls *)

Section PoolShape.
Variables LATENCY_DEVIATION_ALLOWED AVERAGE_LATENCY_EXPECTED : Q.
Variables HEALTH_SCORE_WEIGHT LATENCY_SCORE_WEIGHT : Q.
Variable LATENCY_SCORE_INSTABILITY_WEIGHT : Q.

Local Abbreviation rescore' :=
  (rescore LATENCY_DEVIATION_ALLOWED AVERAGE_LATENCY_EXPECTED
     HEALTH_SCORE_WEIGHT LATENCY_SCORE_WEIGHT LATENCY_SCORE_INSTABILITY_WEIGHT).
Local Abbreviation attempt' :=
  (attempt LATENCY_DEVIATION_ALLOWED AVERAGE_LATENCY_EXPECTED
     HEALTH_SCORE_WEIGHT LATENCY_SCORE_WEIGHT LATENCY_SCORE_INSTABILITY_WEIGHT).
Local Abbreviation attemptObs' :=
  (attemptObs LATENCY_DEVIATION_ALLOWED AVERAGE_LATENCY_EXPECTED
     HEALTH_SCORE_WEIGHT LATENCY_SCORE_WEIGHT LATENCY_SCORE_INSTABILITY_WEIGHT).
Local Abbreviation fetchBalancer' :=
  (fetchBalancer LATENCY_DEVIATION_ALLOWED AVERAGE_LATENCY_EXPECTED
     HEALTH_SCORE_WEIGHT LATENCY_SCORE_WEIGHT LATENCY_SCORE_INSTABILITY_WEIGHT).
Local Abbreviation calls' :=
  (calls LATENCY_DEVIATION_ALLOWED AVERAGE_LATENCY_EXPECTED
     HEALTH_SCORE_WEIGHT LATENCY_SCORE_WEIGHT LATENCY_SCORE_INSTABILITY_WEIGHT).

Lemma evolves_refl b : evolves b b.
Proof. unfold evolves. repeat split; try done; tauto. Qed.

Lemma evolves_trans b1 b2 b3 : evolves b1 b2 → evolves b2 b3 → evolves b1 b3.
Proof.
  intros (Hp & He & Hrc & Heq & Hten & Hsc) (Hp' & He' & Hrc' & Heq' & Hten' & Hsc').
  unfold evolves. split; [congruence|]. split; [congruence|]. split; [lia|].
  split; [tauto|]. split; tauto.
Qed.

Lemma rescore_more now b :
  Backend.proxy (rescore' now b) = Backend.proxy b
  ∧ Backend.errorCount (rescore' now b) = Backend.errorCount b
  ∧ (Backend.scoredRequestCount (rescore' now b) = Backend.scoredRequestCount b
     ∨ Backend.scoredRequestCount (rescore' now b) = Backend.requestCount b).
Proof.
  unfold rescore.
  destruct (decide (measuresTaken (Backend.latencies b) < 2)) as [Hm|Hm].
  - rewrite score_few by done. cbn [snd]. repeat split. by left.
  - rewrite score_enough by lia. cbn. repeat split. by right.
Qed.

Lemma attempt_more o resp latency b :
  Backend.proxy (attempt' o resp latency b) = Backend.proxy b
  ∧ Backend.errorCount (attempt' o resp latency b) = Backend.errorCount b
  ∧ (Backend.scoredRequestCount b ≤ Backend.requestCount b →
     Backend.scoredRequestCount (attempt' o resp latency b)
     ≤ Backend.requestCount (attempt' o resp latency b)).
Proof.
  rewrite attempt_requestCount. unfold attempt.
  set (b0 := prepare _ _ _ _ _ o b).
  assert (Backend.proxy b0 = Backend.proxy b
          ∧ Backend.errorCount b0 = Backend.errorCount b
          ∧ (Backend.scoredRequestCount b ≤ Backend.requestCount b →
             Backend.scoredRequestCount b0 ≤ Backend.requestCount b)
          ∧ Backend.requestCount b0 = S (Backend.requestCount b))
    as (Hp0 & He0 & Hs0 & Hrc0).
  { unfold b0, prepare. destruct (decide _);
      cbn [Backend.with_requestCount Backend.proxy Backend.errorCount
           Backend.scoredRequestCount Backend.requestCount].
    - destruct (rescore_more (t_rescore o) b) as (-> & -> & Hs).
      destruct (rescore_frame LATENCY_DEVIATION_ALLOWED AVERAGE_LATENCY_EXPECTED
                  HEALTH_SCORE_WEIGHT LATENCY_SCORE_WEIGHT
                  LATENCY_SCORE_INSTABILITY_WEIGHT (t_rescore o) b) as (-> & _).
      split; [done|]. split; [done|]. split; [|lia].
      intros Hle. destruct Hs as [-> | ->]; lia.
    - split; [done|]. split; [done|]. split; [intros Hle; lia | lia]. }
  set (b1 := record_observation _ _ b0).
  assert (Backend.proxy b1 = Backend.proxy b0
          ∧ Backend.errorCount b1 = Backend.errorCount b0
          ∧ Backend.scoredRequestCount b1 = Backend.scoredRequestCount b0
          ∧ Backend.requestCount b1 = Backend.requestCount b0)
    as (Hp1 & He1 & Hs1 & Hrc1).
  { unfold b1, record_observation. by destruct (decide _). }
  destruct (is5xx (Response.status resp)).
  - unfold after_error.
    destruct (rescore_more (t_score o) (Backend.with_lastError (t_error o) b1))
      as (-> & -> & Hs).
    cbn [Backend.with_lastError Backend.proxy Backend.errorCount
         Backend.scoredRequestCount Backend.requestCount] in *.
    split; [congruence|]. split; [congruence|].
    intros Hle. destruct Hs as [-> | ->]; [rewrite Hs1; specialize (Hs0 Hle)|]; lia.
  - split; [congruence|]. split; [congruence|].
    intros Hle. rewrite Hs1. specialize (Hs0 Hle). lia.
Qed.

Lemma evolves_attemptObs b o : evolves b (attemptObs' b o).
Proof.
  unfold attemptObs at 1.
  destruct (settle o) as [[resp latency]|] eqn:Ho; [|apply evolves_refl].
  destruct (attempt_more o resp latency b) as (Hp & He & Hs).
  unfold evolves. split; [done|]. split; [done|].
  split; [rewrite attempt_requestCount; lia|].
  split; [|split; [|done]].
  - intros Heq.
    pose proof (attemptObs_equal_length LATENCY_DEVIATION_ALLOWED
                  AVERAGE_LATENCY_EXPECTED HEALTH_SCORE_WEIGHT LATENCY_SCORE_WEIGHT
                  LATENCY_SCORE_INSTABILITY_WEIGHT b o Heq) as Hlen.
    unfold attemptObs in Hlen. by rewrite Ho in Hlen.
  - intros [Hs10 Hl10].
    destruct (attempt_frame LATENCY_DEVIATION_ALLOWED AVERAGE_LATENCY_EXPECTED
                HEALTH_SCORE_WEIGHT LATENCY_SCORE_WEIGHT
                LATENCY_SCORE_INSTABILITY_WEIGHT o resp latency b Hs10 Hl10)
      as (_ & -> & -> & _).
    by rewrite length_insert.
Qed.

Lemma fetchBalancer_evolves env tracked req res tracked' :
  fetchBalancer' env tracked req = Some (res, tracked') →
  Forall2 evolves tracked tracked'.
Proof.
  intros Hrun. unfold fetchBalancer in Hrun.
  apply dispatch_pointwise in Hrun as [Hlen Hpt];
    [|intros i Hi; by apply not_elem_of_empty in Hi].
  apply Forall2_same_length_lookup_2; [done|].
  intros i b b' Hb Hb'.
  destruct (Hpt i b b' Hb Hb') as [->|[_ (o & resp & latency & _ & Hs & ->)]].
  - apply evolves_refl.
  - pose proof (evolves_attemptObs b o) as He. unfold attemptObs in He.
    by rewrite Hs in He.
Qed.

Lemma calls_evolves cs tracked rs tracked' :
  calls' cs tracked = Some (rs, tracked') →
  Forall2 evolves tracked tracked' ∧ length rs = length cs.
Proof.
  revert tracked rs tracked'.
  induction cs as [|[env req] cs IH]; intros tracked rs tracked' Hrun;
    cbn [calls] in Hrun.
  - injection Hrun as <- <-. split; [|done].
    apply Forall_Forall2_diag, Forall_forall. intros b _. apply evolves_refl.
  - destruct (fetchBalancer' env tracked req) as [[res tracked1]|] eqn:Hcall;
      [|done].
    destruct (calls' cs tracked1) as [[rs1 tracked2]|] eqn:Hrest; [|done].
    injection Hrun as <- <-.
    apply fetchBalancer_evolves in Hcall. apply IH in Hrest as [Hrest Hlen].
    split; [|cbn [length]; by rewrite Hlen].
    assert (Forall2_evolves_trans :
      ∀ l1 l2 l3, Forall2 evolves l1 l2 → Forall2 evolves l2 l3 →
                  Forall2 evolves l1 l3).
    { intros l1 l2 l3 H12. revert l3.
      induction H12 as [|x y l1 l2 Hxy H12 IH12]; intros l3 H23;
        inversion H23; subst; constructor; eauto using evolves_trans. }
    by eapply Forall2_evolves_trans.
Qed.
End PoolShape.

(** X14: across any series of calls the pool keeps its size and order,
    and every record keeps its transport and its reserved error counter,
    never loses requests, keeps the two buffers of equal length if they
    were, of ten slots each if they had ten, and keeps the scored request
    count at most the request count if it was; there is one outcome per
    call. *)
Theorem pool_evolves_across_calls D A H L I cs tracked rs tracked' :
  calls D A H L I cs tracked = Some (rs, tracked') →
  Forall2 evolves tracked tracked' ∧ length rs = length cs.
Proof. exact (calls_evolves D A H L I cs tracked rs tracked'). Qed.

Lemma pool_evolves_across_calls_witness :
  ∃ rs tracked',
    sampleCalls threeErrors (balancer [0]) = Some (rs, tracked')
    ∧ Forall2 evolves (balancer [0]) tracked' ∧ length rs = 3.
Proof.
  destruct (sampleCalls threeErrors (balancer [0])) as [[rs tracked']|] eqn:Hrun;
    [|by vm_compute in Hrun].
  exists rs, tracked'. split; [reflexivity|].
  exact (pool_evolves_across_calls 50 100 (1 # 2) (1 # 2) (1 # 5)
           threeErrors (balancer [0]) rs tracked' Hrun).
Defined.

(** X15: a pool built by [balancer] keeps, across any series of calls,
    the transports it was built from, in order; every record has ten
    slots in each buffer, a scored request count no larger than its
    request count, and the reserved error counter still 0. *)
Theorem balancer_pool_invariants D A H L I hs cs rs tracked' :
  calls D A H L I cs (balancer hs) = Some (rs, tracked') →
  Backend.proxy <$> tracked' = hs
  ∧ Forall (λ b, length (Backend.statuses b) = 10
                 ∧ length (Backend.latencies b) = 10
                 ∧ Backend.scoredRequestCount b ≤ Backend.requestCount b
                 ∧ Backend.errorCount b = 0) tracked'.
Proof.
  intros Hrun. apply calls_evolves in Hrun as [Hev _].
  unfold balancer in Hev. revert tracked' Hev.
  induction hs as [|h hs IH]; intros tracked' Hev; inversion Hev as [|b0 b ? l Hb Hl];
    subst; [done|].
  destruct (IH l Hl) as [Hp Hall].
  destruct Hb as (Hproxy & Herr & _ & _ & Hten & Hsc).
  cbn in Hproxy, Herr, Hten, Hsc.
  split.
  - rewrite fmap_cons. by rewrite Hproxy, Hp.
  - constructor; [|done]. destruct Hten as [Hs10 Hl10]; [done|].
    repeat split; try done. apply Hsc. lia.
Qed.

Lemma balancer_pool_invariants_witness :
  ∃ rs tracked',
    sampleCalls twentyCalls (balancer [7]) = Some (rs, tracked')
    ∧ Backend.proxy <$> tracked' = [7].
Proof.
  destruct (sampleCalls twentyCalls (balancer [7])) as [[rs tracked']|] eqn:Hrun;
    [|by vm_compute in Hrun].
  exists rs, tracked'. split; [reflexivity|].
  exact (proj1 (balancer_pool_invariants 50 100 (1 # 2) (1 # 2) (1 # 5)
                  [7] twentyCalls rs tracked' Hrun)).
Defined.

(** ** Transports that never yield a sample *)

Lemma present_insert_Forall (P : Z → Prop) (a : JsArray) (i : nat) (v : Z) :
  Forall P (present a) → P v → Forall P (present (<[i := Some v]> a)).
Proof.
  unfold present. revert i. induction a as [|x a IH]; intros i Ha Hv; [done|].
  destruct i as [|i]; cbn [insert list_insert omap list_omap].
  - destruct x as [x|]; cbn in *; [apply Forall_cons in Ha as [_ Ha]|];
      by constructor.
  - destruct x as [x|]; cbn in *.
    + apply Forall_cons in Ha as [Hx Ha]. constructor; [done|]. by apply IH.
    + by apply IH.
Qed.

Lemma measuresTaken_all_zero (a : JsArray) :
  Forall (λ x, x = 0%Z) (present a) → measuresTaken a = 0.
Proof.
  intros Hall. unfold measuresTaken.
  induction (present a) as [|x l IH]; [done|].
  apply Forall_cons in Hall as [-> Hall]. rewrite filter_cons_False by (intros Hne; by apply Hne).
  by apply IH.
Qed.

Section NoSample.
Variables LATENCY_DEVIATION_ALLOWED AVERAGE_LATENCY_EXPECTED : Q.
Variables HEALTH_SCORE_WEIGHT LATENCY_SCORE_WEIGHT : Q.
Variable LATENCY_SCORE_INSTABILITY_WEIGHT : Q.

Local Abbreviation attempt' :=
  (attempt LATENCY_DEVIATION_ALLOWED AVERAGE_LATENCY_EXPECTED
     HEALTH_SCORE_WEIGHT LATENCY_SCORE_WEIGHT LATENCY_SCORE_INSTABILITY_WEIGHT).
Local Abbreviation attemptObs' :=
  (attemptObs LATENCY_DEVIATION_ALLOWED AVERAGE_LATENCY_EXPECTED
     HEALTH_SCORE_WEIGHT LATENCY_SCORE_WEIGHT LATENCY_SCORE_INSTABILITY_WEIGHT).
Local Abbreviation attempts' :=
  (attempts LATENCY_DEVIATION_ALLOWED AVERAGE_LATENCY_EXPECTED
     HEALTH_SCORE_WEIGHT LATENCY_SCORE_WEIGHT LATENCY_SCORE_INSTABILITY_WEIGHT).

(** On a record without a usable sample an attempt of latency 0 only
    counts the request and fills one slot of each buffer. *)
Lemma attempt_without_sample o resp b :
  length (Backend.statuses b) = 10 → length (Backend.latencies b) = 10 →
  Forall (λ x, x = 0%Z) (present (Backend.latencies b)) →
  Backend.latencies (attempt' o resp 0 b)
  = <[Backend.requestCount b mod 10 := Some 0%Z]> (Backend.latencies b)
  ∧ scoreFields (attempt' o resp 0 b) = scoreFields b.
Proof.
  intros Hs Hl Hzero.
  assert (measuresTaken (Backend.latencies b) < 2) as Hm
    by (rewrite measuresTaken_all_zero by done; lia).
  assert (Forall (λ x, x = 0%Z)
            (present (<[Backend.requestCount b mod 10 := Some 0%Z]>
                        (Backend.latencies b)))) as Hzero'
    by (by apply present_insert_Forall).
  unfold attempt, prepare. rewrite (rescore_few _ _ _ _ _ _ b Hm).
  assert ((if decide (Backend.scoredRequestCount b ≠ Backend.requestCount b)
           then b else b) = b) as -> by (by destruct (decide _)).
  unfold record_observation.
  cbn [Backend.with_requestCount Backend.statuses Backend.latencies
       Backend.requestCount].
  rewrite Hs, decide_False by lia. rewrite Nat.add_1_r.
  rewrite !js_store_mod_ring by done.
  destruct (is5xx (Response.status resp)); [|done].
  unfold after_error. rewrite rescore_few; [done|].
  cbn [Backend.with_lastError Backend.with_buffers Backend.latencies].
  rewrite measuresTaken_all_zero by done. lia.
Qed.

Lemma attempts_without_sample os b :
  length (Backend.statuses b) = 10 → length (Backend.latencies b) = 10 →
  Forall (λ x, x = 0%Z) (present (Backend.latencies b)) →
  Forall unmeasurable os →
  scoreFields (attempts' b os) = scoreFields b
  ∧ Forall (λ x, x = 0%Z) (present (Backend.latencies (attempts' b os)))
  ∧ Backend.requestCount (attempts' b os) = Backend.requestCount b + length os.
Proof.
  revert b. induction os as [|o os IH]; intros b Hs Hl Hzero Hall.
  - cbn. repeat split; [done | lia].
  - apply Forall_cons in Hall as [[resp Ho] Hall].
    unfold attempts in *. cbn [foldl length].
    assert (attemptObs' b o = attempt' o resp 0 b) as Hstep
      by (unfold attemptObs; by rewrite Ho).
    rewrite Hstep.
    destruct (attempt_without_sample o resp b Hs Hl Hzero) as [Hlat Hfields].
    destruct (attempt_frame LATENCY_DEVIATION_ALLOWED AVERAGE_LATENCY_EXPECTED
                HEALTH_SCORE_WEIGHT LATENCY_SCORE_WEIGHT
                LATENCY_SCORE_INSTABILITY_WEIGHT o resp 0%Z b Hs Hl)
      as (Hrc & Hst & Hl' & _).
    destruct (IH (attempt' o resp 0 b)) as (Hf & Hz & Hn); [| done | | done |].
    + rewrite Hst. by rewrite length_insert.
    + rewrite Hlat. by apply present_insert_Forall.
    + split; [congruence|]. split; [done|]. rewrite Hn, Hrc. lia.
Qed.
End NoSample.

(** X16: a transport whose latency is always recorded as 0, because its
    promise always rejects or its answers arrive within the millisecond,
    is never scored: after any number of such attempts on the record
    [balancer] built for it, the record has served all those requests and
    still has health score, latency score and score 1, scored request
    count 0 and no usable sample. *)
Theorem unmeasurable_transport_is_never_scored D A H L I h os :
  Forall unmeasurable os →
  let b := attempts D A H L I (newBackend h) os in
  scoreFields b = (1%Q, 1%Q, 1%Q, 0)
  ∧ measuresTaken (Backend.latencies b) = 0
  ∧ Backend.requestCount b = length os.
Proof.
  intros Hall b.
  destruct (attempts_without_sample D A H L I os (newBackend h))
    as (Hf & Hz & Hn); try done.
  split; [exact Hf|]. split; [by apply measuresTaken_all_zero | exact Hn].
Qed.

Lemma unmeasurable_transport_is_never_scored_witness :
  Forall unmeasurable [rejecting; rejecting; rejecting]
  ∧ scoreFields (attempts 50 100 (1 # 2) (1 # 2) (1 # 5) (newBackend 0)
                   [rejecting; rejecting; rejecting]) = (1%Q, 1%Q, 1%Q, 0)
  ∧ Backend.requestCount
      (attempts 50 100 (1 # 2) (1 # 2) (1 # 5) (newBackend 0)
         [rejecting; rejecting; rejecting]) = 3.
Proof.
  assert (Forall unmeasurable [rejecting; rejecting; rejecting]) as H1
    by (repeat constructor; by eexists).
  split; [exact H1|].
  destruct (unmeasurable_transport_is_never_scored 50 100 (1 # 2) (1 # 2) (1 # 5)
              0 [rejecting; rejecting; rejecting] H1) as (Hf & _ & Hn).
  split; [exact Hf | exact Hn].
Defined.

(** ** Construction *)

Lemma balancerOf_callable hs : balancerOf (Callable <$> hs) = inr (balancer hs).
Proof.
  induction hs as [|h hs IH]; [done|].
  rewrite fmap_cons. cbn [balancerOf]. by rewrite IH.
Qed.

(** X17: [balancer] builds a pool exactly from lists of functions, one
    record with the defaults per function and in the same order; as soon
    as one value is not a function, as with the objects of the example
    wiring, construction fails with the error of line 44. *)
Theorem balancerOf_accepts_functions_only backends :
  (∀ hs, backends = Callable <$> hs → balancerOf backends = inr (balancer hs))
  ∧ (∀ fn url, Wiring fn url ∈ backends →
       balancerOf backends = inl "Backend must be a fetch like function"%string)
  ∧ (∀ tracked, balancerOf backends = inr tracked →
       ∃ hs, backends = Callable <$> hs ∧ tracked = balancer hs
             ∧ length tracked = length backends).
Proof.
  split; [intros hs ->; apply balancerOf_callable|]. split.
  - intros fn url Hin. induction backends as [|c backends IH].
    + by apply elem_of_nil in Hin.
    + destruct c as [h|fn' url']; [|done]. cbn [balancerOf].
      rewrite IH; [done|]. by apply elem_of_cons in Hin as [?|?].
  - induction backends as [|c backends IH]; intros tracked Hrun.
    + injection Hrun as <-. by exists [].
    + destruct c as [h|fn url]; [|done]. cbn [balancerOf] in Hrun.
      destruct (balancerOf backends) as [e|tracked0]; [done|].
      injection Hrun as <-. destruct (IH tracked0 eq_refl) as (hs & -> & -> & Hlen).
      exists (h :: hs). repeat split. cbn [length]. by rewrite Hlen.
Qed.

Lemma balancerOf_accepts_functions_only_witness :
  Wiring 0 "https://example.org" ∈ exampleBackends
  ∧ balancerOf exampleBackends
    = inl "Backend must be a fetch like function"%string.
Proof.
  assert (Wiring 0 "https://example.org" ∈ exampleBackends) as H1
    by (right; left).
  split; [exact H1|].
  exact (proj1 (proj2 (balancerOf_accepts_functions_only exampleBackends))
           0 "https://example.org"%string H1).
Defined.

(** ** The record a turn of the loop attempts *)

Lemma untried_NoDup (n : nat) (attempted : gset nat) :
  NoDup (untried (Some attempted) (seq 0 n)).
Proof. apply NoDup_filter, NoDup_seq. Qed.

Lemma elem_of_untried_seq (n : nat) (attempted : gset nat) (i : nat) :
  i ∈ untried (Some attempted) (seq 0 n) ↔ i < n ∧ i ∉ attempted.
Proof.
  unfold untried. rewrite list_elem_of_filter, elem_of_seq. cbn.
  rewrite bool_decide_eq_false. split; intros [H1 H2]; split; try done; lia.
Qed.

(** At most one untried record beats a record the selector returns. *)
Lemma chooseBackends_second_at_worst store (attempted : gset nat) r j1 j2 :
  (chooseBackends store (seq 0 (length store)) (Some attempted)).1 = Some r
  ∨ (chooseBackends store (seq 0 (length store)) (Some attempted)).2 = Some r →
  j1 ≠ j2 → j1 < length store → j2 < length store →
  j1 ∉ attempted → j2 ∉ attempted →
  beats (deref store j1) (deref store r) = true →
  beats (deref store j2) (deref store r) = true → False.
Proof.
  intros Hr Hne Hj1 Hj2 Hn1 Hn2 Hb1 Hb2.
  pose proof (chooseBackends_TwoBest store (seq 0 (length store)) (Some attempted))
    as Hst.
  pose proof (untried_NoDup (length store) attempted) as Hnd.
  assert (j1 ∈ untried (Some attempted) (seq 0 (length store))) as Hin1
    by (by apply elem_of_untried_seq).
  assert (j2 ∈ untried (Some attempted) (seq 0 (length store))) as Hin2
    by (by apply elem_of_untried_seq).
  apply list_elem_of_lookup_1 in Hin1 as [k1 Hk1].
  apply list_elem_of_lookup_1 in Hin2 as [k2 Hk2].
  assert (k1 ≠ k2) as Hk by (intros ->; congruence).
  destruct (chooseBackends store (seq 0 (length store)) (Some attempted))
    as [o1 o2]. cbn [fst snd] in Hr.
  inversion Hst as [Hl|r0 Hl|i j r1 r2 Hij Hi Hj Hrest]; subst.
  - by destruct Hr.
  - rewrite Hl in Hk1, Hk2. destruct k1 as [|k1], k2 as [|k2]; done.
  - assert (∀ k z, untried (Some attempted) (seq 0 (length store)) !! k = Some z →
              beats (deref store z) (deref store r) = true → k = i ∨ k = j)
      as Hpair.
    { intros k z Hz Hbz. destruct (decide (k = i)) as [|Hki]; [by left|].
      destruct (decide (k = j)) as [|Hkj]; [by right|].
      destruct (Hrest k z Hki Hkj Hz) as [H1 H2].
      destruct Hr as [[= ->]|[= ->]]; congruence. }
    assert (∀ k z, untried (Some attempted) (seq 0 (length store)) !! k = Some z →
              beats (deref store z) (deref store r) = true →
              untried (Some attempted) (seq 0 (length store)) !! k ≠ Some r)
      as Hself.
    { intros k z Hz Hbz Hzr. assert (z = r) as -> by congruence.
      by rewrite beats_irrefl in Hbz. }
    pose proof (Hpair k1 j1 Hk1 Hb1) as Hp1.
    pose proof (Hpair k2 j2 Hk2 Hb2) as Hp2.
    pose proof (Hself k1 j1 Hk1 Hb1) as Hs1.
    pose proof (Hself k2 j2 Hk2 Hb2) as Hs2.
    destruct Hr as [[= ->]|[= ->]], Hp1 as [-> | ->], Hp2 as [-> | ->];
      congruence.
Qed.

(** X18: every turn of the loop attempts an untried record that at most
    one other untried record beats, so with no record attempted yet the
    first attempt of a call goes to one of the two top-ranked records of
    the pool. *)
Theorem dispatch_attempts_one_of_two_best
    D A H L I o env req tracked (attempted : gset nat) :
  size attempted < length tracked →
  ∃ r b,
    (tracked !! r = Some b) ∧ (r ∉ attempted)
    ∧ (∀ j1 j2 b1 b2, j1 ≠ j2 → j1 ∉ attempted → j2 ∉ attempted →
         tracked !! j1 = Some b1 → tracked !! j2 = Some b2 →
         beats b1 b = true → beats b2 b = true → False)
    ∧ dispatch D A H L I (o :: env) req tracked attempted =
        match settle o with
        | None => Some (Raised, tracked)
        | Some (resp, latency) =>
            if is5xx (Response.status resp) && canRetry req resp
            then dispatch D A H L I env req
                   (<[r := attempt D A H L I o resp latency b]> tracked)
                   ({[r]} ∪ attempted)
            else Some (Returned resp,
                       <[r := attempt D A H L I o resp latency b]> tracked)
        end.
Proof.
  intros Hsize.
  destruct (chooseBackends_pool tracked attempted Hsize) as (a & ob & Hc & Hvalid).
  set (r := match ob with
            | None => a
            | Some backendB => if coin o then a else backendB
            end).
  assert (Some a = Some r ∨ ob = Some r) as Hchoice.
  { unfold r. destruct ob as [backendB|]; [destruct (coin o)|]; auto. }
  destruct (Hvalid r Hchoice) as [Hr Hna].
  destruct (lookup_lt_is_Some_2 tracked r Hr) as [b Hb].
  exists r, b. split; [done|]. split; [done|]. split.
  - intros j1 j2 b1 b2 Hne Hn1 Hn2 H1 H2 Hb1 Hb2.
    apply (chooseBackends_second_at_worst tracked attempted r j1 j2);
      try done.
    + by rewrite Hc.
    + by eapply lookup_lt_Some.
    + by eapply lookup_lt_Some.
    + by rewrite (deref_lookup _ _ _ H1), (deref_lookup _ _ _ Hb).
    + by rewrite (deref_lookup _ _ _ H2), (deref_lookup _ _ _ Hb).
  - cbn [dispatch]. rewrite decide_True by done. rewrite Hc. fold r.
    by rewrite (deref_lookup _ _ _ Hb).
Qed.

Lemma dispatch_attempts_one_of_two_best_witness :
  size (∅ : gset nat) < length testPool
  ∧ ∃ r b, testPool !! r = Some b
      ∧ (∀ j1 j2 b1 b2, j1 ≠ j2 → j1 ∉ (∅ : gset nat) → j2 ∉ (∅ : gset nat) →
           testPool !! j1 = Some b1 → testPool !! j2 = Some b2 →
           beats b1 b = true → beats b2 b = true → False).
Proof.
  assert (size (∅ : gset nat) < length testPool) as H1
    by (rewrite size_empty; cbn; lia).
  split; [exact H1|].
  destruct (dispatch_attempts_one_of_two_best 50 100 (1 # 2) (1 # 2) (1 # 5)
              (answer 200 "hi" 1 clock0) [] (Request.mk "GET") testPool ∅ H1)
    as (r & b & Hb & _ & Hbest & _).
  exists r, b. split; [exact Hb | exact Hbest].
Defined.

(** ** Records without errors *)

(** X19: a record that holds no status in 500..599 and at least two
    samples is given the health score 1 at any reference time, however
    recent its last error. *)
Theorem healthScore_one_without_5xx D A H L I dateNow b errorBasis :
  errors (Backend.statuses b) = 0 →
  2 ≤ measuresTaken (Backend.latencies b) →
  returnedHealth (score D A H L I dateNow b errorBasis) = 1%Q
  ∧ Backend.healthScore (snd (score D A H L I dateNow b errorBasis)) = 1%Q.
Proof.
  intros He Hm. rewrite score_enough by done.
  cbn [returnedHealth fst snd Backend.healthScore].
  unfold healthScoreOf. rewrite He.
  assert (∀ w m, toFixed2 (1 - w * (Qnat 0 / m)) = 1%Q) as Hone.
  { intros w m. transitivity (toFixed2 1); [|reflexivity].
    apply toFixed2_Qeq. unfold Qnat, Qdiv. cbn [Z.of_nat].
    change (inject_Z 0) with 0%Q. ring. }
  by rewrite Hone.
Qed.

Lemma healthScore_one_without_5xx_witness :
  errors (Backend.statuses healthy) = 0
  ∧ 2 ≤ measuresTaken (Backend.latencies healthy)
  ∧ returnedHealth (sampleScore 0 healthy (Some 0%Z)) = 1%Q.
Proof.
  assert (errors (Backend.statuses healthy) = 0) as H1 by reflexivity.
  assert (2 ≤ measuresTaken (Backend.latencies healthy)) as H2
    by (vm_compute; lia).
  split; [exact H1 | split; [exact H2 |]].
  exact (proj1 (healthScore_one_without_5xx 50 100 (1 # 2) (1 # 2) (1 # 5)
                  0 healthy (Some 0%Z) H1 H2)).
Defined.
